(** * PyMuPlayer: the directory lister and the playback controller

    A shallow embedding of [PyMuPlayer.py].  The module-level globals of the
    script ([location], [volume], [current], [index], [is_muted],
    [is_playing], [length], [title]), the widgets whose state the handlers
    read back ([files_list], the four transport buttons, the two sliders) and
    the two external stores the handlers write to (the [QSettings] object and
    the media player / audio output) form one [state] record.  Every handler
    of the script is a function on that record; handlers that can raise
    return an [outcome].

    External collaborators are modelled by what the script observes of them:
    - [pathlib] (POSIX flavour): parsing, [str], [parent], [name], [suffix],
      [/], [is_dir], [iterdir];
    - the filesystem: an oracle [filesystem] answering [is_dir] and listing
      the names inside a directory;
    - Qt widgets: [QListWidget] rows and current row, [QSlider] range
      clamping, the [enabled] flag of a [QPushButton];
    - the player and the settings store: a trace of the commands sent.

    Pure view updates (labels, icons, window title, tool tips) do not feed
    back into any handler and are left out.  [str.lower] is modelled on ASCII
    letters. *)

From stdpp Require Import base option list gmap strings sorting.
From Stdlib Require Import ZArith Ascii String Lia.
From Stdlib Require Import Decimal DecimalString DecimalZ.

Local Open Scope string_scope.
Local Open Scope list_scope.
Local Open Scope Z_scope.

(** ** Python exceptions and the result of a handler *)

Inductive exn :=
  | OSError          (* [iterdir] on something that is not a directory *)
  | AttributeError   (* [item.text()] with [item = None] *)
  | RuntimeError.    (* a list item that no longer exists *)

Inductive outcome (A : Type) :=
  | Done (a : A)
  | Raised (e : exn).
Arguments Done {A} a.
Arguments Raised {A} e.

#[global] Instance outcome_ret : MRet outcome := fun A a => Done a.
#[global] Instance outcome_bind : MBind outcome := fun A B k m =>
  match m with
  | Done a => k a
  | Raised e => Raised e
  end.

(** ** Python [str] helpers *)

Module Str.

(** [c.lower()] for one ASCII character. *)
Definition lower_ascii (c : ascii) : ascii :=
  let n := N_of_ascii c in
  if ((65 <=? n) && (n <=? 90))%N then ascii_of_N (n + 32) else c.

(** [s.lower()] *)
Fixpoint lower (s : string) : string :=
  match s with
  | EmptyString => EmptyString
  | String c s' => String (lower_ascii c) (lower s')
  end.

(** [s.startswith(p)] *)
Definition startswith (s p : string) : bool := String.prefix p s.

(** [s.endswith(p)] for a one-character [p]. *)
Fixpoint endswith_char (s : string) (c : ascii) : bool :=
  match s with
  | EmptyString => false
  | String a EmptyString => Ascii.eqb a c
  | String _ s' => endswith_char s' c
  end.

(** [s.rfind(c)] for a one-character [c]: the last position of [c], or -1. *)
Fixpoint rfind (s : string) (c : ascii) : Z :=
  match s with
  | EmptyString => -1
  | String a s' =>
      let i := rfind s' c in
      if 0 <=? i then i + 1
      else if Ascii.eqb a c then 0 else -1
  end.

(** [len(s)] *)
Definition len (s : string) : Z := Z.of_nat (String.length s).

(** [s[n:]] *)
Fixpoint drop (n : nat) (s : string) : string :=
  match n, s with
  | O, _ => s
  | S n', String _ s' => drop n' s'
  | S _, EmptyString => EmptyString
  end.

(** [s[i:]] for [0 <= i]. *)
Definition slice_from (s : string) (i : Z) : string := drop (Z.to_nat i) s.

(** [s.split(sep)] for a one-character separator. *)
Fixpoint split (s : string) (sep : ascii) : list string :=
  match s with
  | EmptyString => [EmptyString]
  | String a s' =>
      if Ascii.eqb a sep then EmptyString :: split s' sep
      else match split s' sep with
           | p :: ps => String a p :: ps
           | [] => [String a EmptyString]
           end
  end.

(** [sep.join(l)] *)
Definition join (sep : string) (l : list string) : string :=
  String.concat sep l.

End Str.

(** ** [posixpath] and [pathlib.PurePosixPath] *)

Module posixpath.

Definition sep : ascii := "/"%char.

(** [posixpath.join(a, b)] *)
Definition join (a b : string) : string :=
  if Str.startswith b "/" then b
  else if String.eqb a "" || Str.endswith_char a sep then (a ++ b)%string
  else (a ++ "/" ++ b)%string.

(** [posixpath.splitroot(p)] without the (always empty) drive: one leading
    slash or three and more give the root ["/"], exactly two give ["//"]. *)
Definition splitroot (p : string) : string * string :=
  if negb (Str.startswith p "/") then ("", p)
  else if negb (Str.startswith (Str.drop 1 p) "/")
          || Str.startswith (Str.drop 2 p) "/"
  then ("/", Str.drop 1 p)
  else ("//", Str.drop 2 p).

End posixpath.

Module Path.

(** A parsed path: its root and its tail of components. *)
Record t := mk { root : string; parts : list string }.

#[global] Instance t_eq_dec : EqDecision t.
Proof. solve_decision. Defined.

(** [Path(s)] : empty and ["."] components are dropped. *)
Definition keep_part (x : string) : bool :=
  negb (String.eqb x "") && negb (String.eqb x ".").

Definition Path (s : string) : t :=
  let '(r, rel) := posixpath.splitroot s in
  mk r (List.filter keep_part (Str.split rel posixpath.sep)).

(** [str(p)] *)
Definition str (p : t) : string :=
  match root p, parts p with
  | EmptyString, [] => "."
  | r, tl => (r ++ Str.join "/" tl)%string
  end.

(** [p.parent] : a path without components is its own parent. *)
Definition parent (p : t) : t :=
  match parts p with
  | [] => p
  | tl => mk (root p) (removelast tl)
  end.

(** [p.name] *)
Definition name (p : t) : string := List.last (parts p) "".

(** [p.suffix] *)
Definition suffix (p : t) : string :=
  let n := name p in
  let i := Str.rfind n "."%char in
  if (0 <? i) && (i <? Str.len n - 1) then Str.slice_from n i else "".

(** [Path(a) / b] : the two segments are joined, then parsed. *)
Definition truediv (a b : string) : t := Path (posixpath.join a b).

(** The child that [iterdir] builds for a directory entry [n]. *)
Definition make_child_relpath (p : t) (n : string) : t :=
  mk (root p) (parts p ++ [n]).

End Path.

(** ** The filesystem *)

(** What the script observes of the filesystem: whether a path (given by its
    [str]) is a directory, and the names [os.listdir] returns for it. *)
Record filesystem := {
  isdir : string -> bool;
  listdir : string -> list string
}.

(** [p.is_dir()] *)
Definition is_dir (fs : filesystem) (p : Path.t) : bool :=
  isdir fs (Path.str p).

(** [p.iterdir()] : raises unless [p] is a directory. *)
Definition iterdir (fs : filesystem) (p : Path.t) : outcome (list Path.t) :=
  if is_dir fs p
  then Done (List.map (Path.make_child_relpath p) (listdir fs (Path.str p)))
  else Raised OSError.

(** ** The directory lister (lines 96-105 and 268-276) *)

(** The set literal [EXTENSIONS]; the script only tests membership in it, so
    it is kept as the list of its elements. *)
Definition EXTENSIONS : list string :=
  [ ".aac"; ".aif"; ".aiff"; ".flac"; ".mp3"; ".ogg"; ".wav" ].

(** The condition of the list comprehension. *)
Definition listed (fs : filesystem) (file : Path.t) : bool :=
  negb (Str.startswith (Path.name file) ".")
  && (is_dir fs file
      || bool_decide (Str.lower (Path.suffix file) ∈ EXTENSIONS)).

(** The sort key [lambda f: (not f.is_dir(), f.name.lower())]. *)
Definition sort_key (fs : filesystem) (f : Path.t) : bool * string :=
  (negb (is_dir fs f), Str.lower (Path.name f)).

(** [k1 < k2] on such tuples: the first components decide unless they are
    equal; [False < True]. *)
Definition key_ltb (k1 k2 : bool * string) : bool :=
  if Bool.eqb k1.1 k2.1 then String.ltb k1.2 k2.2
  else negb k1.1 && k2.1.

(** [sorted(l, key=key)] : Python's sort is stable and compares keys with [<]
    only; a stable insertion sort computes the same list. *)
Section Sorted.
Context {A K : Type} (key : A -> K) (ltb : K -> K -> bool).

Fixpoint insert_sorted (x : A) (l : list A) : list A :=
  match l with
  | [] => [x]
  | y :: l' =>
      if ltb (key y) (key x) then y :: insert_sorted x l'
      else x :: y :: l'
  end.

Definition sorted (l : list A) : list A :=
  List.fold_right insert_sorted [] l.
End Sorted.

(** The list comprehension over the children of the folder. *)
Definition entries (fs : filesystem) (children : list Path.t) : list Path.t :=
  List.filter (listed fs) children.

(** [entries_sorted] for the folder [location]. *)
Definition entries_sorted (fs : filesystem) (location : string)
  : outcome (list Path.t) :=
  children ← iterdir fs (Path.Path location);
  mret (sorted (sort_key fs) key_ltb (entries fs children)).

(** ** Qt widgets *)

(** [QListWidget]: the rows and the current row (-1 when there is none).  A
    [QListWidgetItem] is identified by its row. *)
Record QListWidget := { items : list string; currentRow : Z }.

Module ListWidget.
Definition count (w : QListWidget) : Z := Z.of_nat (List.length (items w)).
Definition clear (w : QListWidget) : QListWidget :=
  {| items := []; currentRow := -1 |}.
Definition addItem (n : string) (w : QListWidget) : QListWidget :=
  {| items := items w ++ [n]; currentRow := currentRow w |}.
(** A row out of range leaves no current item. *)
Definition setCurrentRow (r : Z) (w : QListWidget) : QListWidget :=
  {| items := items w;
     currentRow := if (0 <=? r) && (r <? count w) then r else -1 |}.
Definition currentItem (w : QListWidget) : option nat :=
  if (0 <=? currentRow w) && (currentRow w <? count w)
  then Some (Z.to_nat (currentRow w)) else None.
Definition setCurrentItem (item : nat) (w : QListWidget) : QListWidget :=
  setCurrentRow (Z.of_nat item) w.
Definition text (item : nat) (w : QListWidget) : option string :=
  items w !! item.
End ListWidget.

(** [QPushButton]: only the [enabled] flag; a new button is enabled. *)
Record QPushButton := { isEnabled : bool }.
Definition new_button : QPushButton := {| isEnabled := true |}.
Definition setEnabled (b : bool) (_ : QPushButton) : QPushButton :=
  {| isEnabled := b |}.

(** [QSlider]: the range and the value; Qt keeps the value within the
    range. *)
Record QSlider := { minimum : Z; maximum : Z; value : Z }.

Module Slider.
Definition bound (lo hi v : Z) : Z := Z.max lo (Z.min hi v).
Definition new (lo hi v : Z) : QSlider :=
  {| minimum := lo; maximum := Z.max lo hi;
     value := bound lo (Z.max lo hi) v |}.
Definition setValue (v : Z) (w : QSlider) : QSlider :=
  {| minimum := minimum w; maximum := maximum w;
     value := bound (minimum w) (maximum w) v |}.
Definition setMaximum (m : Z) (w : QSlider) : QSlider :=
  new (Z.min (minimum w) m) m (value w).
End Slider.

(** ** Settings and commands sent to the outside *)

Inductive QVariant :=
  | VStr (s : string)
  | VInt (n : Z)
  | VGeometry.       (* the opaque blob of [window.saveGeometry()] *)

#[global] Instance QVariant_eq_dec : EqDecision QVariant.
Proof. solve_decision. Defined.

(** [OutputSetVolume v] stands for [output.setVolume(v / 100)]. *)
Inductive effect :=
  | PlayerSetSource (path : string)
  | PlayerPlay
  | PlayerPause
  | PlayerStop
  | PlayerSetPosition (ms : Z)
  | OutputSetVolume (percent : Z)
  | OutputSetMuted (b : bool)
  | SettingsSetValue (name : string) (v : QVariant).

#[global] Instance effect_eq_dec : EqDecision effect.
Proof. solve_decision. Defined.

(** ** The state of the program *)

Record state := mkState {
  location : string;
  volume : Z;
  current : Z;
  index : Z;
  is_muted : bool;
  is_playing : bool;
  length : Z;
  title : string;
  files_list : QListWidget;
  back_button : QPushButton;
  stop_button : QPushButton;
  play_pause_button : QPushButton;
  forward_button : QPushButton;
  time_bar : QSlider;
  volume_bar : QSlider;
  settings : gmap string QVariant;
  trace : list effect
}.

(** One setter per field: [set_f v s] is [s] with the field [f] replaced by
    [v]. *)
Definition set_location (v : string) (s : state) : state :=
  mkState v (volume s) (current s) (index s) (is_muted s) (is_playing s)
    (length s) (title s) (files_list s) (back_button s) (stop_button s)
    (play_pause_button s) (forward_button s) (time_bar s) (volume_bar s)
    (settings s) (trace s).
Definition set_volume (v : Z) (s : state) : state :=
  mkState (location s) v (current s) (index s) (is_muted s) (is_playing s)
    (length s) (title s) (files_list s) (back_button s) (stop_button s)
    (play_pause_button s) (forward_button s) (time_bar s) (volume_bar s)
    (settings s) (trace s).
Definition set_current (v : Z) (s : state) : state :=
  mkState (location s) (volume s) v (index s) (is_muted s) (is_playing s)
    (length s) (title s) (files_list s) (back_button s) (stop_button s)
    (play_pause_button s) (forward_button s) (time_bar s) (volume_bar s)
    (settings s) (trace s).
Definition set_index (v : Z) (s : state) : state :=
  mkState (location s) (volume s) (current s) v (is_muted s) (is_playing s)
    (length s) (title s) (files_list s) (back_button s) (stop_button s)
    (play_pause_button s) (forward_button s) (time_bar s) (volume_bar s)
    (settings s) (trace s).
Definition set_is_muted (v : bool) (s : state) : state :=
  mkState (location s) (volume s) (current s) (index s) v (is_playing s)
    (length s) (title s) (files_list s) (back_button s) (stop_button s)
    (play_pause_button s) (forward_button s) (time_bar s) (volume_bar s)
    (settings s) (trace s).
Definition set_is_playing (v : bool) (s : state) : state :=
  mkState (location s) (volume s) (current s) (index s) (is_muted s) v
    (length s) (title s) (files_list s) (back_button s) (stop_button s)
    (play_pause_button s) (forward_button s) (time_bar s) (volume_bar s)
    (settings s) (trace s).
Definition set_length (v : Z) (s : state) : state :=
  mkState (location s) (volume s) (current s) (index s) (is_muted s)
    (is_playing s) v (title s) (files_list s) (back_button s)
    (stop_button s) (play_pause_button s) (forward_button s) (time_bar s)
    (volume_bar s) (settings s) (trace s).
Definition set_title (v : string) (s : state) : state :=
  mkState (location s) (volume s) (current s) (index s) (is_muted s)
    (is_playing s) (length s) v (files_list s) (back_button s)
    (stop_button s) (play_pause_button s) (forward_button s) (time_bar s)
    (volume_bar s) (settings s) (trace s).
Definition set_files_list (v : QListWidget) (s : state) : state :=
  mkState (location s) (volume s) (current s) (index s) (is_muted s)
    (is_playing s) (length s) (title s) v (back_button s) (stop_button s)
    (play_pause_button s) (forward_button s) (time_bar s) (volume_bar s)
    (settings s) (trace s).
Definition set_back_button (v : QPushButton) (s : state) : state :=
  mkState (location s) (volume s) (current s) (index s) (is_muted s)
    (is_playing s) (length s) (title s) (files_list s) v (stop_button s)
    (play_pause_button s) (forward_button s) (time_bar s) (volume_bar s)
    (settings s) (trace s).
Definition set_stop_button (v : QPushButton) (s : state) : state :=
  mkState (location s) (volume s) (current s) (index s) (is_muted s)
    (is_playing s) (length s) (title s) (files_list s) (back_button s) v
    (play_pause_button s) (forward_button s) (time_bar s) (volume_bar s)
    (settings s) (trace s).
Definition set_play_pause_button (v : QPushButton) (s : state) : state :=
  mkState (location s) (volume s) (current s) (index s) (is_muted s)
    (is_playing s) (length s) (title s) (files_list s) (back_button s)
    (stop_button s) v (forward_button s) (time_bar s) (volume_bar s)
    (settings s) (trace s).
Definition set_forward_button (v : QPushButton) (s : state) : state :=
  mkState (location s) (volume s) (current s) (index s) (is_muted s)
    (is_playing s) (length s) (title s) (files_list s) (back_button s)
    (stop_button s) (play_pause_button s) v (time_bar s) (volume_bar s)
    (settings s) (trace s).
Definition set_time_bar (v : QSlider) (s : state) : state :=
  mkState (location s) (volume s) (current s) (index s) (is_muted s)
    (is_playing s) (length s) (title s) (files_list s) (back_button s)
    (stop_button s) (play_pause_button s) (forward_button s) v
    (volume_bar s) (settings s) (trace s).
Definition set_volume_bar (v : QSlider) (s : state) : state :=
  mkState (location s) (volume s) (current s) (index s) (is_muted s)
    (is_playing s) (length s) (title s) (files_list s) (back_button s)
    (stop_button s) (play_pause_button s) (forward_button s) (time_bar s) v
    (settings s) (trace s).
Definition set_settings (v : gmap string QVariant) (s : state) : state :=
  mkState (location s) (volume s) (current s) (index s) (is_muted s)
    (is_playing s) (length s) (title s) (files_list s) (back_button s)
    (stop_button s) (play_pause_button s) (forward_button s) (time_bar s)
    (volume_bar s) v (trace s).
Definition set_trace (v : list effect) (s : state) : state :=
  mkState (location s) (volume s) (current s) (index s) (is_muted s)
    (is_playing s) (length s) (title s) (files_list s) (back_button s)
    (stop_button s) (play_pause_button s) (forward_button s) (time_bar s)
    (volume_bar s) (settings s) v.

Notation "s |> f" := (f s) (at level 45, left associativity, only parsing).

(** A command sent to the player, the audio output or the settings store. *)
Definition emit (e : effect) (s : state) : state :=
  set_trace (trace s ++ [e]) s.

(** [save_setting(name, value)] *)
Definition save_setting (name : string) (v : QVariant) (s : state) : state :=
  s |> set_settings (<[name := v]> (settings s))
    |> emit (SettingsSetValue name v).

(** [player.mediaStatusChanged] carries one of these. *)
Inductive MediaStatus :=
  | NoMedia | LoadingMedia | LoadedMedia | StalledMedia
  | BufferingMedia | BufferedMedia | EndOfMedia | InvalidMedia.

#[global] Instance MediaStatus_eq_dec : EqDecision MediaStatus.
Proof. solve_decision. Defined.

(** ** The handlers *)

Section Handlers.

(** [HOME = str(Path.home())], fixed when the program starts, and the
    filesystem as it is while one handler runs. *)
Variable HOME : string.
Variable fs : filesystem.

(** [verify_location()] *)
Definition verify_location (s : state) : state :=
  if negb (is_dir fs (Path.Path (location s))) then
    let s := set_location HOME s in
    save_setting "location" (VStr (location s)) s
  else s.

(** [change_volume(new_volume)] *)
Definition change_volume (new_volume : Z) (s : state) : state :=
  let s := set_volume new_volume s in
  let s := emit (OutputSetVolume (volume s)) s in
  let s := set_volume_bar (Slider.setValue (volume s) (volume_bar s)) s in
  save_setting "volume" (VInt (volume s)) s.

(** [update_length(time)] : [int(time / 1000)] truncates the quotient. *)
Definition update_length (time : Z) (s : state) : state :=
  let s := set_length (Z.quot time 1000) s in
  set_time_bar (Slider.setMaximum (length s) (time_bar s)) s.

(** [update_current(time)] *)
Definition update_current (time : Z) (s : state) : state :=
  let s := set_current (Z.quot time 1000) s in
  set_time_bar (Slider.setValue (current s) (time_bar s)) s.

(** [update_skip_buttons()] *)
Definition update_skip_buttons (s : state) : state :=
  let s := set_back_button (setEnabled false (back_button s)) s in
  let s := set_forward_button (setEnabled false (forward_button s)) s in
  if index s =? -1 then s
  else
    let s := if 0 <? index s
             then set_back_button (setEnabled true (back_button s)) s
             else s in
    if index s <? ListWidget.count (files_list s) - 1
    then set_forward_button (setEnabled true (forward_button s)) s
    else s.

(** [stop()] *)
Definition stop (s : state) : state :=
  s |> emit PlayerStop
    |> set_is_playing false
    |> (fun s =>
          set_play_pause_button (setEnabled false (play_pause_button s)) s)
    |> (fun s => set_stop_button (setEnabled false (stop_button s)) s)
    |> set_title ""
    |> set_index (-1)
    |> update_length 0
    |> update_current 0
    |> update_skip_buttons.

(** [play()] *)
Definition play (s : state) : state :=
  s |> emit PlayerPlay |> set_is_playing true.

(** [play_pause()] *)
Definition play_pause (s : state) : state :=
  if is_playing s then
    s |> emit PlayerPause |> set_is_playing false
  else play s.

(** [change_time(time)] *)
Definition change_time (time : Z) (s : state) : state :=
  emit (PlayerSetPosition (time * 1000)) s.

(** [mute()] *)
Definition mute (s : state) : state :=
  let s := set_is_muted (negb (is_muted s)) s in
  emit (OutputSetMuted (is_muted s)) s.

(** [for file in entries_sorted: files_list.addItem(file.name)] *)
Definition add_items (es : list Path.t) (s : state) : state :=
  List.fold_left
    (fun s file =>
       set_files_list (ListWidget.addItem (Path.name file) (files_list s)) s)
    es s.

(** [update_files()] *)
Definition update_files (s : state) : outcome state :=
  let s := verify_location s in
  let s := set_files_list (ListWidget.clear (files_list s)) s in
  es ← entries_sorted fs (location s);
  mret (add_items es s).

(** [change_location()] *)
Definition change_location (s : state) : outcome state :=
  let s := save_setting "location" (VStr (location s)) s in
  update_files s.

(** [home()] *)
Definition home (s : state) : outcome state :=
  change_location (set_location HOME s).

(** [go_up()] *)
Definition go_up (s : state) : outcome state :=
  change_location
    (set_location (Path.str (Path.parent (Path.Path (location s)))) s).

(** [double_click(item)] : [item] is [None] when [currentItem()] found no
    current item. *)
Definition double_click (item : option nat) (s : state) : outcome state :=
  match item with
  | None => Raised AttributeError
  | Some row =>
      match ListWidget.text row (files_list s) with
      | None => Raised RuntimeError
      | Some text =>
          let selected := Path.truediv (location s) text in
          if is_dir fs selected then
            change_location (set_location (Path.str selected) s)
          else
            let s := emit (PlayerSetSource (Path.str selected)) s in
            let s := set_title (Path.name selected) s in
            let s := set_play_pause_button
                       (setEnabled true (play_pause_button s)) s in
            let s := set_stop_button (setEnabled true (stop_button s)) s in
            let s := set_files_list
                       (ListWidget.setCurrentItem row (files_list s)) s in
            let s := set_index (currentRow (files_list s)) s in
            let s := play s in
            Done (update_skip_buttons s)
      end
  end.

(** [previous()] *)
Definition previous (s : state) : outcome state :=
  if 0 <? index s then
    let s := set_files_list
               (ListWidget.setCurrentRow (index s - 1) (files_list s)) s in
    double_click (ListWidget.currentItem (files_list s)) s
  else Done s.

(** [next()] *)
Definition next (s : state) : outcome state :=
  if index s <? ListWidget.count (files_list s) - 1 then
    let s := set_files_list
               (ListWidget.setCurrentRow (index s + 1) (files_list s)) s in
    double_click (ListWidget.currentItem (files_list s)) s
  else Done s.

(** [finished(status)] *)
Definition finished (status : MediaStatus) (s : state) : outcome state :=
  if bool_decide (status = EndOfMedia) then next s else Done s.

(** [save_window_geometry()] *)
Definition save_window_geometry (s : state) : state :=
  save_setting "geometry" VGeometry s.

(** The module-level code, run once with the stored settings: the globals,
    the first listing, the widgets (the skip and stop buttons start
    disabled, the play/pause button is left as created) and the first
    [change_volume(volume)].  A stored value of another type than the one
    asked for counts as absent. *)
Definition startup (stored : gmap string QVariant) : outcome state :=
  let location0 :=
    match stored !! "location" with Some (VStr l) => l | _ => HOME end in
  let volume0 :=
    match stored !! "volume" with Some (VInt v) => v | _ => 100 end in
  let s :=
    {| location := location0; volume := volume0; current := 0;
       index := -1; is_muted := false; is_playing := false;
       length := 0; title := "";
       files_list := {| items := []; currentRow := -1 |};
       back_button := setEnabled false new_button;
       stop_button := setEnabled false new_button;
       play_pause_button := new_button;
       forward_button := setEnabled false new_button;
       time_bar := Slider.new 0 0 0;
       volume_bar := Slider.new 0 100 volume0;
       settings := stored; trace := [] |} in
  let s := verify_location s in
  es ← entries_sorted fs (location s);
  let s := change_volume (volume s) s in
  mret (add_items es s).

(** ** Events: what the user and the player can do to the program *)

Inductive event :=
  | BackClicked | StopClicked | PlayPauseClicked | ForwardClicked
  | ItemDoubleClicked (row : nat)
  | HomeClicked | RefreshClicked | UpClicked
  | MuteClicked
  | VolumeBarMoved (v : Z)
  | TimeBarMoved (t : Z)
  | DurationChanged (ms : Z)
  | PositionChanged (ms : Z)
  | MediaStatusChanged (status : MediaStatus)
  | AboutToQuit.

(** A disabled button does not emit [clicked]. *)
Definition clicked (b : QPushButton) (slot : state -> outcome state)
    (s : state) : outcome state :=
  if isEnabled b then slot s else Done s.

(** The signal connections of the script.  A double click reaches
    [double_click] only for a row that exists, with that row current. *)
Definition dispatch (e : event) (s : state) : outcome state :=
  match e with
  | BackClicked => clicked (back_button s) previous s
  | StopClicked => clicked (stop_button s) (fun s => Done (stop s)) s
  | PlayPauseClicked =>
      clicked (play_pause_button s) (fun s => Done (play_pause s)) s
  | ForwardClicked => clicked (forward_button s) next s
  | ItemDoubleClicked row =>
      match ListWidget.text row (files_list s) with
      | Some _ =>
          double_click (Some row)
            (set_files_list
               (ListWidget.setCurrentRow (Z.of_nat row) (files_list s)) s)
      | None => Done s
      end
  | HomeClicked => home s
  | RefreshClicked => update_files s
  | UpClicked => go_up s
  | MuteClicked => Done (mute s)
  | VolumeBarMoved v => Done (change_volume v s)
  | TimeBarMoved t => Done (change_time t s)
  | DurationChanged ms => Done (update_length ms s)
  | PositionChanged ms => Done (update_current ms s)
  | MediaStatusChanged status => finished status s
  | AboutToQuit => Done (save_window_geometry s)
  end.

End Handlers.

(** A run: each event is handled on the filesystem as it is at that time. *)
Fixpoint run (HOME : string) (steps : list (filesystem * event)) (s : state)
  : outcome state :=
  match steps with
  | [] => Done s
  | (fs, e) :: steps' => s' ← dispatch HOME fs e s; run HOME steps' s'
  end.

(** The states the program can be in. *)
Definition reachable (HOME : string) (s : state) : Prop :=
  exists fs0 stored steps,
    (s0 ← startup HOME fs0 stored; run HOME steps s0) = Done s.

(** ** The vocabulary of the specification *)

(** [Stopped]: nothing loaded and not playing; [Loaded]: something loaded. *)
Definition Stopped (s : state) : Prop := index s = -1 /\ is_playing s = false.




(** "within bounds of the current entry list". *)
Definition in_bounds (i : Z) (w : QListWidget) : bool :=
  (0 <=? i) && (i <? ListWidget.count w).

(** "clamp v to [0,100]". *)
Definition clamp_volume (v : Z) : Z := Z.max 0 (Z.min 100 v).


(** The children [iterdir] yields for the folder [location]. *)
Definition children (fs : filesystem) (location : string) : list Path.t :=
  List.map (Path.make_child_relpath (Path.Path location))
    (listdir fs (Path.str (Path.Path location))).


(** What the lister produces for a folder that can be listed. *)
Definition listing (fs : filesystem) (location : string) : list Path.t :=
  sorted (sort_key fs) key_ltb (entries fs (children fs location)).

(** The playback part of the state. *)
Definition playback (s : state) : Z * bool * string * Z * Z :=
  (index s, is_playing s, title s, current s, length s).

(** ** A small filesystem to run the handlers on *)

Module Example.

(** Directories and the names inside them, in [os.listdir] order. *)
Definition tree : list (string * list string) :=
  [ ("/", ["home"; "readme.txt"]);
    ("/home", ["u"]);
    ("/home/u",
      ["b.mp3"; ".cache"; "notes.txt"; "Music"; "a.MP3"; ".hidden.mp3";
       "Zeta.wav"; "archive"]);
    ("/home/u/.cache", []);
    ("/home/u/Music", ["2.flac"; "1.flac"; "cover.jpg"; "3.ogg"; "4.aiff"]);
    ("/home/u/archive", ["old.mp3"]) ].

Definition lookup_dir (p : string) : option (list string) :=
  snd <$> List.find (fun d => String.eqb (fst d) p) tree.

Definition fs : filesystem :=
  {| isdir p := bool_decide (is_Some (lookup_dir p));
     listdir p := default [] (lookup_dir p) |}.

Definition HOME : string := "/home/u".

(** The program started with an empty settings store, evaluated once. *)
Definition started : outcome state :=
  Eval vm_compute in startup HOME fs ∅.

(** The events of a run, all on [fs]. *)
Definition events (es : list event) : list (filesystem * event) :=
  List.map (fun e => (fs, e)) es.

Definition after (es : list event) : outcome state :=
  s0 ← started; run HOME (events es) s0.

(** A state with nothing in it, for runs that raise. *)
Definition blank : state :=
  {| location := HOME; volume := 100; current := 0;
     index := -1; is_muted := false; is_playing := false;
     length := 0; title := "";
     files_list := {| items := []; currentRow := -1 |};
     back_button := new_button; stop_button := new_button;
     play_pause_button := new_button; forward_button := new_button;
     time_bar := Slider.new 0 0 0; volume_bar := Slider.new 0 100 100;
     settings := ∅; trace := [] |}.

(** The state a run ends in. *)
Definition state_after (es : list event) : state :=
  match after es with Done s => s | Raised _ => blank end.

End Example.

(** ** More of the script: the time labels and the window title *)

Module Text.

(** [s[:n]] *)
Fixpoint take (n : nat) (s : string) : string :=
  match n, s with
  | S n', String a s' => String a (take n' s')
  | _, _ => EmptyString
  end.

(** [c in s] for a one-character [c]. *)
Fixpoint contains (s : string) (c : ascii) : bool :=
  match s with
  | EmptyString => false
  | String a s' => Ascii.eqb a c || contains s' c
  end.

(** [s.rsplit(c, 1)] : split once, at the last [c]. *)
Definition rsplit1 (s : string) (c : ascii) : list string :=
  let i := Str.rfind s c in
  if 0 <=? i
  then [take (Z.to_nat i) s; Str.drop (Z.to_nat (i + 1)) s]
  else [s].

(** [str(n)] for an integer. *)
Definition str_of_int (n : Z) : string :=
  NilZero.string_of_int (Z.to_int n).

(** [int(s)] for a string of decimal digits with an optional minus sign. *)
Definition int_of_str (s : string) : option Z :=
  Z.of_int <$> NilZero.int_of_string s.

(** [f"{n:02}"] : at least two characters, zero-filled after the sign. *)
Definition format_02 (n : Z) : string :=
  let t := str_of_int n in
  if Str.len t <? 2 then String "0" t else t.

End Text.

(** [format_time(seconds)] : [divmod] rounds towards minus infinity. *)
Definition format_time (seconds : Z) : string :=
  let hours := seconds / 3600 in
  let remainder := seconds mod 3600 in
  let minutes := remainder / 60 in
  let seconds := remainder mod 60 in
  (Text.format_02 hours ++ ":" ++ Text.format_02 minutes ++ ":"
     ++ Text.format_02 seconds)%string.

(** The texts [update_length_label()] and [update_current_label()] write. *)
Definition length_label (s : state) : string := format_time (length s).
Definition current_label (s : state) : string := format_time (current s).

(** The text [update_window_title()] gives the window for a [title]. *)
Definition window_title (title : string) : string :=
  let name :=
    if Text.contains title "." then hd "" (Text.rsplit1 title ".")
    else title in
  ("PyMu Player"
     ++ (if negb (String.eqb title "") then " - " ++ name else ""))%string.

(** Reading a time label back: the three numbers between the colons. *)
Definition parse_time (label : string) : option Z :=
  match Str.split label ":" with
  | [h; m; x] =>
      h' ← Text.int_of_str h; m' ← Text.int_of_str m;
      x' ← Text.int_of_str x; Some (h' * 3600 + m' * 60 + x')
  | _ => None
  end.

(** ** More vocabulary: what holds of the states the program reaches *)

(** What the next start would read from a settings store. *)
Definition stored_location (HOME : string) (m : gmap string QVariant)
  : string :=
  match m !! "location" with Some (VStr l) => l | _ => HOME end.
Definition stored_volume (m : gmap string QVariant) : Z :=
  match m !! "volume" with Some (VInt v) => v | _ => 100 end.


(** The enabled flags of the buttons against [index]. *)
Definition buttons_follow_index (s : state) : Prop :=
  isEnabled (stop_button s) = negb (index s =? -1)
  /\ isEnabled (back_button s) = (0 <? index s)
  /\ (isEnabled (forward_button s) = true -> index s <> -1)
  /\ (index s <> -1 -> isEnabled (play_pause_button s) = true).

(** What the commands of a trace leave the audio output and the player
    with: the last volume sent, the last muted flag (unmuted at first), and
    whether the last of play, pause and stop sent was play. *)
Definition output_volume (t : list effect) : option Z :=
  List.fold_left
    (fun v e => match e with OutputSetVolume p => Some p | _ => v end) t None.
Definition output_muted (t : list effect) : bool :=
  List.fold_left
    (fun m e => match e with OutputSetMuted b => b | _ => m end) t false.
Definition play_requested (t : list effect) : bool :=
  List.fold_left
    (fun p e =>
       match e with
       | PlayerPlay => true
       | PlayerPause | PlayerStop => false
       | _ => p
       end) t false.

Definition engine_follows_state (s : state) : Prop :=
  output_volume (trace s) = Some (volume s)
  /\ output_muted (trace s) = is_muted s
  /\ play_requested (trace s) = is_playing s.

(** A list entry as [iterdir] yields it: one path component. *)
Definition simple_name (n : string) : Prop :=
  Path.keep_part n = true /\ Str.split n posixpath.sep = [n].


(** * Properties *)

(** ** The evaluation of small examples *)

Example Path_examples :
  Path.str (Path.Path "/home//u/./Music/") = "/home/u/Music" /\
  Path.str (Path.parent (Path.Path "/home/u")) = "/home" /\
  Path.str (Path.parent (Path.Path "/home")) = "/" /\
  Path.str (Path.Path "") = "." /\
  Path.str (Path.Path "///srv") = "/srv" /\
  Path.str (Path.Path "//srv") = "//srv" /\
  Path.str (Path.truediv "/home/u" "a.mp3") = "/home/u/a.mp3" /\
  Path.str (Path.truediv "/" "home") = "/home" /\
  Path.suffix (Path.Path "/m/Song.One.MP3") = ".MP3" /\
  Path.suffix (Path.Path "/m/noext.") = "" /\
  Path.suffix (Path.Path "/m/.hidden") = "" /\
  Str.lower "Song.MP3" = "song.mp3" /\
  Str.split "a//b/" "/" = ["a"; ""; "b"; ""].
Proof. repeat split; reflexivity. Qed.

Example sorted_is_stable :
  sorted (fun p : Z * string => p.1) Z.ltb
    [(2, "a"); (1, "b"); (2, "c"); (1, "d")]
  = [(1, "b"); (1, "d"); (2, "a"); (2, "c")].
Proof. reflexivity. Qed.

(** ** [sorted] returns a sorted rearrangement of its argument *)

Section SortedFacts.
Context {A K : Type} (key : A -> K) (ltb : K -> K -> bool).

Hypothesis ltb_asym : forall a b, ltb a b = true -> ltb b a = false.
Hypothesis ltb_negtrans :
  forall a b c, ltb b a = false -> ltb c b = false -> ltb c a = false.





(** The sort is stable: entries whose keys do not order one before the
    other keep the order they had. *)
Lemma insert_sorted_filter (P : A -> bool) (x : A) (l : list A) :
  (forall y, P x = true -> P y = true -> ltb (key y) (key x) = false) ->
  List.filter P (insert_sorted key ltb x l)
  = List.filter P (x :: l).
Proof.
  intros HP. induction l as [|y l IH]; [done|].
  cbn [insert_sorted]. destruct (ltb (key y) (key x)) eqn:Hyx; [|done].
  cbn [List.filter] in *. rewrite IH.
  destruct (P x) eqn:Hx, (P y) eqn:Hy; try done.
  by rewrite HP in Hyx.
Qed.

Lemma sorted_stable (P : A -> bool) (l : list A) :
  (forall x y, P x = true -> P y = true -> ltb (key y) (key x) = false) ->
  List.filter P (sorted key ltb l) = List.filter P l.
Proof.
  intros HP. induction l as [|x l IH]; [done|].
  cbn [sorted List.fold_right]. fold (sorted key ltb l).
  rewrite insert_sorted_filter by (intros; by apply HP).
  cbn [List.filter]. by rewrite IH.
Qed.

End SortedFacts.

(** ** The order on sort keys *)





(** ** Paths: parsing what [str] printed gives the path back *)

Lemma split_not_nil (s : string) (c : ascii) : Str.split s c <> [].
Proof.
  destruct s as [|a s]; simpl; [done|].
  destruct (Ascii.eqb a c); [done|]. by destruct (Str.split s c).
Qed.


Lemma split_append_sep (p r : string) (c : ascii) :
  Str.split p c = [p] ->
  Str.split (p ++ String c r)%string c = p :: Str.split r c.
Proof.
  induction p as [|a p IH]; simpl.
  - intros _. by rewrite Ascii.eqb_refl.
  - destruct (Ascii.eqb a c) eqn:Hac; [done|].
    destruct (Str.split p c) as [|p0 ps] eqn:Hp.
    + by destruct (split_not_nil p c).
    + intros [= -> ->]. by rewrite IH.
Qed.




(** A component of a parsed path starts with a character that is not the
    separator. *)
Lemma part_head (p : string) :
  Path.keep_part p = true -> Str.split p posixpath.sep = [p] ->
  exists a p', p = String a p' /\ Ascii.eqb a posixpath.sep = false.
Proof.
  destruct p as [|a p']; [done|]. intros _ H. exists a, p'. split; [done|].
  simpl in H. by destruct (Ascii.eqb a posixpath.sep).
Qed.


Lemma startswith_sep (a : ascii) (s : string) :
  Str.startswith (String a s) "/" = Ascii.eqb a posixpath.sep.
Proof.
  unfold Str.startswith.
  change (String.prefix "/" (String a s))
    with (if ascii_dec "/" a then String.prefix "" s else false).
  destruct (ascii_dec "/" a) as [<-|Hne]; [by destruct s|].
  symmetry. apply Ascii.eqb_neq. unfold posixpath.sep. congruence.
Qed.

Lemma splitroot_relative (a : ascii) (j : string) :
  Ascii.eqb a posixpath.sep = false ->
  posixpath.splitroot (String a j) = ("", String a j).
Proof.
  intros Ha. unfold posixpath.splitroot. by rewrite startswith_sep, Ha.
Qed.

Lemma splitroot_one_slash (a : ascii) (j : string) :
  Ascii.eqb a posixpath.sep = false ->
  posixpath.splitroot (String "/" (String a j)) = ("/", String a j).
Proof.
  intros Ha. unfold posixpath.splitroot. cbn [Str.drop].
  by rewrite !startswith_sep, Ha.
Qed.

Lemma splitroot_two_slashes (a : ascii) (j : string) :
  Ascii.eqb a posixpath.sep = false ->
  posixpath.splitroot (String "/" (String "/" (String a j)))
  = ("//", String a j).
Proof.
  intros Ha. unfold posixpath.splitroot. cbn [Str.drop].
  by rewrite !startswith_sep, Ha.
Qed.


(** ** The handlers that list a folder *)

Lemma add_items_eq (es : list Path.t) (s : state) :
  add_items es s
  = set_files_list
      {| items := items (files_list s) ++ List.map Path.name es;
         currentRow := currentRow (files_list s) |} s.
Proof.
  unfold add_items. revert s.
  induction es as [|e es IH]; intros s; simpl.
  - rewrite app_nil_r. by destruct s as [? ? ? ? ? ? ? ? []].
  - rewrite IH. unfold set_files_list, ListWidget.addItem; simpl.
    by rewrite <- app_assoc.
Qed.

Lemma entries_sorted_Done (fs : filesystem) (location : string) :
  is_dir fs (Path.Path location) = true ->
  entries_sorted fs location = Done (listing fs location).
Proof.
  intros H. unfold entries_sorted, iterdir. by rewrite H.
Qed.

Lemma entries_sorted_inv (fs : filesystem) (location : string)
    (es : list Path.t) :
  entries_sorted fs location = Done es ->
  is_dir fs (Path.Path location) = true /\ es = listing fs location.
Proof.
  unfold entries_sorted, iterdir.
  destruct (is_dir fs (Path.Path location)); [|done].
  by intros [= <-].
Qed.

Lemma verify_location_valid (HOME : string) (fs : filesystem) (s : state) :
  is_dir fs (Path.Path (location s)) = true ->
  verify_location HOME fs s = s.
Proof. intros H. unfold verify_location. by rewrite H. Qed.

(** Whatever [update_files] returns is the verified state with the list
    replaced by the listing of its folder. *)
Lemma update_files_inv (HOME : string) (fs : filesystem) (s s' : state) :
  update_files HOME fs s = Done s' ->
  let s1 := verify_location HOME fs s in
  is_dir fs (Path.Path (location s1)) = true /\
  s' = set_files_list
         {| items := List.map Path.name (listing fs (location s1));
            currentRow := -1 |} s1.
Proof.
  unfold update_files.
  set (s1 := verify_location HOME fs s). simpl.
  destruct (entries_sorted fs (location s1)) as [es|] eqn:Hes; [|done].
  apply entries_sorted_inv in Hes as [Hdir ->]. simpl.
  intros [= <-]. split; [done|]. by rewrite add_items_eq.
Qed.

Lemma update_files_valid (HOME : string) (fs : filesystem) (s : state) :
  is_dir fs (Path.Path (location s)) = true ->
  update_files HOME fs s
  = Done (set_files_list
            {| items := List.map Path.name (listing fs (location s));
               currentRow := -1 |} s).
Proof.
  intros H. unfold update_files.
  rewrite verify_location_valid by done. simpl.
  rewrite entries_sorted_Done by done. simpl.
  by rewrite add_items_eq.
Qed.






(** The child built for a directory entry has that entry as its name. *)
Lemma name_make_child_relpath (p : Path.t) (n : string) :
  Path.name (Path.make_child_relpath p n) = n.
Proof. unfold Path.name, Path.make_child_relpath; simpl. apply last_last. Qed.

(** ** The lister, the location, stopping and the volume *)





(** C8.  [stop], from any state and so from Playing and from Paused, sends
    the player the stop command and leaves [index = -1],
    [is_playing = False], [current = 0], [length = 0] and an empty [title];
    the stop and play/pause buttons and both skip buttons end disabled. *)
Theorem stop_resets (s : state) :
  let s' := stop s in
  trace s' = trace s ++ [PlayerStop]
  /\ index s' = -1 /\ is_playing s' = false
  /\ current s' = 0 /\ length s' = 0 /\ title s' = ""
  /\ isEnabled (stop_button s') = false
  /\ isEnabled (play_pause_button s') = false
  /\ isEnabled (back_button s') = false
  /\ isEnabled (forward_button s') = false.
Proof. by repeat split. Qed.

(** C10.  [go_up] at the filesystem root: the parent of ["/"] is ["/"], so
    the location stays ["/"]; it is written to the settings store again and
    the folder is listed again; going up a second time changes neither the
    location nor the list. *)
Theorem go_up_at_root (HOME : string) (fs : filesystem) (s : state) :
  location s = "/" -> isdir fs "/" = true ->
  Path.str (Path.parent (Path.Path (location s))) = "/" /\
  exists s',
    go_up HOME fs s = Done s'
    /\ location s' = "/"
    /\ settings s' !! "location" = Some (VStr "/")
    /\ trace s' = trace s ++ [SettingsSetValue "location" (VStr "/")]
    /\ items (files_list s') = List.map Path.name (listing fs "/")
    /\ playback s' = playback s
    /\ exists s'',
         go_up HOME fs s' = Done s''
         /\ location s'' = location s' /\ files_list s'' = files_list s'.
Proof.
  intros Hloc Hroot.
  assert (Hup : forall t, location t = "/" ->
            go_up HOME fs t
            = Done (set_files_list
                      {| items := List.map Path.name (listing fs "/");
                         currentRow := -1 |}
                      (save_setting "location" (VStr "/")
                         (set_location "/" t)))).
  { intros t Ht. unfold go_up, change_location. rewrite Ht.
    change (Path.str (Path.parent (Path.Path "/"))) with "/".
    by rewrite update_files_valid. }
  split; [by rewrite Hloc|].
  eexists. split; [by apply Hup|]. simpl.
  repeat split; [apply lookup_insert_eq|].
  eexists. split; [by apply Hup|]. done.
Qed.

Lemma go_up_at_root_witness :
  exists s',
    go_up Example.HOME Example.fs (set_location "/" Example.blank) = Done s'
    /\ location s' = "/".
Proof.
  assert (Hloc0 : location (set_location "/" Example.blank) = "/")
    by reflexivity.
  assert (Hroot : isdir Example.fs "/" = true) by (vm_compute; reflexivity).
  destruct (go_up_at_root Example.HOME Example.fs
              (set_location "/" Example.blank) Hloc0 Hroot)
    as (_ & s' & Hs' & Hloc & _).
  exists s'. split; [exact Hs' | exact Hloc].
Defined.

(** C4, as the code has it.  [change_volume v] stores [v] itself as the
    volume, sends [v / 100] to the audio output and writes [v] itself to
    the settings store, whatever [v] is; only the slider bounds the value
    it shows by its range, which is [[0, 100]] for the volume bar.  The
    value written is the clamped one exactly when [0 <= v <= 100]. *)
Theorem change_volume_stores_argument (v : Z) (s : state) :
  let s' := change_volume v s in
  volume s' = v
  /\ settings s' !! "volume" = Some (VInt v)
  /\ trace s'
     = trace s ++ [OutputSetVolume v; SettingsSetValue "volume" (VInt v)]
  /\ (minimum (volume_bar s) = 0 -> maximum (volume_bar s) = 100 ->
      value (volume_bar s') = clamp_volume v)
  /\ (settings s' !! "volume" = Some (VInt (clamp_volume v))
      <-> 0 <= v <= 100).
Proof.
  assert (Hset : settings (change_volume v s) !! "volume" = Some (VInt v))
    by apply lookup_insert_eq.
  cbv zeta. split; [done|]. split; [exact Hset|]. split; [|split].
  - unfold change_volume, save_setting, emit; simpl. by rewrite <- app_assoc.
  - unfold change_volume; simpl. by intros -> ->.
  - rewrite Hset. unfold clamp_volume. split.
    + intros [= H]. lia.
    + intros H. do 2 f_equal. lia.
Qed.

Lemma change_volume_stores_argument_witness :
  value (volume_bar (change_volume 150 Example.blank)) = 100
  /\ settings (change_volume 50 Example.blank) !! "volume"
     = Some (VInt (clamp_volume 50)).
Proof.
  split.
  - apply (proj1 (proj2 (proj2 (proj2
             (change_volume_stores_argument 150 Example.blank)))));
      reflexivity.
  - apply (proj2 (proj2 (proj2 (proj2
             (change_volume_stores_argument 50 Example.blank))))).
    lia.
Defined.

(** C4 as stated fails: 150 is written as 150, not as 100, and -5 as -5,
    not as 0. *)
Lemma change_volume_does_not_clamp :
  settings (change_volume 150 Example.blank) !! "volume"
    <> Some (VInt (clamp_volume 150))
  /\ settings (change_volume (-5) Example.blank) !! "volume"
    <> Some (VInt (clamp_volume (-5)))
  /\ volume (change_volume 150 Example.blank) = 150.
Proof.
  unfold change_volume, save_setting; simpl.
  rewrite !lookup_insert_eq. by repeat split.
Qed.

(** ** Selecting an entry *)

(** Reading a field of an updated state. *)
Ltac state_simpl :=
  cbn [play emit save_setting
       set_location set_volume set_current set_index
       set_is_muted set_is_playing set_length set_title
       set_files_list set_back_button set_stop_button set_play_pause_button
       set_forward_button set_time_bar set_volume_bar set_settings
       set_trace
       location volume current index is_muted is_playing
       length title files_list back_button stop_button play_pause_button
       forward_button time_bar volume_bar settings trace
       items currentRow isEnabled setEnabled] in *.

Lemma update_skip_buttons_eq (s : state) :
  update_skip_buttons s
  = set_forward_button
      {| isEnabled := negb (index s =? -1)
                      && (index s <? ListWidget.count (files_list s) - 1) |}
      (set_back_button
         {| isEnabled := negb (index s =? -1) && (0 <? index s) |} s).
Proof.
  unfold update_skip_buttons. state_simpl.
  destruct (index s =? -1), (0 <? index s); state_simpl;
    destruct (index s <? ListWidget.count (files_list s) - 1); done.
Qed.

Lemma update_files_list_irrelevant (HOME : string) (fs : filesystem)
    (w : QListWidget) (s : state) :
  update_files HOME fs (set_files_list w s) = update_files HOME fs s.
Proof.
  unfold update_files, verify_location; simpl.
  destruct (is_dir fs (Path.Path (location s))); simpl.
  - destruct (entries_sorted fs (location s)); simpl; [|done].
    by rewrite !add_items_eq.
  - destruct (entries_sorted fs HOME); simpl; [|done].
    by rewrite !add_items_eq.
Qed.

(** [double_click] does not depend on which row was current before. *)
Lemma double_click_row_irrelevant (HOME : string) (fs : filesystem)
    (item : option nat) (r : Z) (s : state) :
  double_click HOME fs item
    (set_files_list (ListWidget.setCurrentRow r (files_list s)) s)
  = double_click HOME fs item s.
Proof.
  unfold double_click. destruct item as [row|]; [|done]. simpl.
  unfold ListWidget.text; simpl.
  destruct (items (files_list s) !! row) as [text|]; [|done].
  destruct (is_dir fs (Path.truediv (location s) text)); [|done].
  unfold change_location.
  apply (update_files_list_irrelevant HOME fs
           (ListWidget.setCurrentRow r (files_list s))
           (save_setting "location"
              (VStr (Path.str (Path.truediv (location s) text)))
              (set_location (Path.str (Path.truediv (location s) text)) s))).
Qed.

(** A double click on a row that exists is [double_click] on that row. *)
Lemma dispatch_double_click (HOME : string) (fs : filesystem) (row : nat)
    (s : state) :
  is_Some (ListWidget.text row (files_list s)) ->
  dispatch HOME fs (ItemDoubleClicked row) s
  = double_click HOME fs (Some row) s.
Proof.
  intros [text Ht]. unfold dispatch. rewrite Ht.
  apply double_click_row_irrelevant.
Qed.


Lemma double_click_file (HOME : string) (fs : filesystem) (row : nat)
    (text : string) (s : state) :
  ListWidget.text row (files_list s) = Some text ->
  is_dir fs (Path.truediv (location s) text) = false ->
  exists s',
    double_click HOME fs (Some row) s = Done s'
    /\ index s' = Z.of_nat row /\ is_playing s' = true
    /\ title s' = Path.name (Path.truediv (location s) text)
    /\ items (files_list s') = items (files_list s)
    /\ location s' = location s
    /\ trace s'
       = trace s ++ [PlayerSetSource
                       (Path.str (Path.truediv (location s) text));
                     PlayerPlay]
    /\ isEnabled (back_button s') = (0 <? index s')
    /\ isEnabled (forward_button s')
       = (index s' <? ListWidget.count (files_list s') - 1)
    /\ isEnabled (stop_button s') = true
    /\ isEnabled (play_pause_button s') = true.
Proof.
  intros Ht Hdir. unfold double_click. rewrite Ht, Hdir.
  eexists. split; [done|].
  apply lookup_lt_Some in Ht.
  assert (Hrow : (0 <=? Z.of_nat row)
                 && (Z.of_nat row <? ListWidget.count (files_list s)) = true).
  { unfold ListWidget.count. apply andb_true_iff.
    split; [apply Z.leb_le|apply Z.ltb_lt]; lia. }
  assert (Hne : (Z.of_nat row =? -1) = false) by (apply Z.eqb_neq; lia).
  rewrite update_skip_buttons_eq.
  unfold ListWidget.setCurrentItem, ListWidget.setCurrentRow.
  state_simpl. rewrite Hrow, Hne. rewrite <- app_assoc.
  by repeat split.
Qed.




(** ** End of media *)

(** C2, as the code has it.  On the end-of-media status the controller does
    what [next] does, whatever the state; on the last entry of the list
    (and beyond it) [next] does nothing, so the state is left as it is:
    [index] and [is_playing] keep their values, no command is sent, and
    there is no wraparound to the first entry.  Any other status is
    ignored. *)
Theorem end_of_media_is_next (HOME : string) (fs : filesystem) (s : state) :
  finished HOME fs EndOfMedia s = next HOME fs s
  /\ (ListWidget.count (files_list s) - 1 <= index s ->
      finished HOME fs EndOfMedia s = Done s)
  /\ (forall status, status <> EndOfMedia ->
      finished HOME fs status s = Done s).
Proof.
  split; [done|]. split.
  - intros H. unfold finished, next; simpl.
    apply Z.ltb_ge in H. by rewrite H.
  - intros status H. unfold finished. by rewrite bool_decide_eq_false_2.
Qed.

Lemma end_of_media_is_next_witness :
  finished Example.HOME Example.fs EndOfMedia
    (Example.state_after [ItemDoubleClicked 4%nat])
  = Done (Example.state_after [ItemDoubleClicked 4%nat])
  /\ finished Example.HOME Example.fs LoadedMedia Example.blank
     = Done Example.blank.
Proof.
  split.
  - apply (proj1 (proj2 (end_of_media_is_next Example.HOME Example.fs
                           (Example.state_after [ItemDoubleClicked 4%nat])))).
    vm_compute. discriminate.
  - apply (proj2 (proj2 (end_of_media_is_next Example.HOME Example.fs
                           Example.blank))).
    discriminate.
Defined.

(** C2 as stated fails: [Zeta.wav] is the last of five entries; when it
    ends, the state is still Playing with [index = 4], not Stopped. *)
Lemma end_of_media_on_last_entry_keeps_playing :
  let s := Example.state_after [ItemDoubleClicked 4%nat] in
  Example.after [ItemDoubleClicked 4%nat] = Done s
  /\ is_playing s = true
  /\ index s = ListWidget.count (files_list s) - 1
  /\ exists s',
       dispatch Example.HOME Example.fs (MediaStatusChanged EndOfMedia) s
       = Done s'
       /\ index s' = 4 /\ is_playing s' = true /\ ~ Stopped s'.
Proof.
  cbv zeta. split; [by vm_compute|]. split; [by vm_compute|].
  split; [by vm_compute|].
  exists (Example.state_after [ItemDoubleClicked 4%nat]).
  split; [by vm_compute|]. split; [by vm_compute|]. split; [by vm_compute|].
  intros [H _]. vm_compute in H. discriminate H.
Qed.

(** ** Play/pause *)

Lemma startup_state (HOME : string) (fs : filesystem)
    (stored : gmap string QVariant) (s0 : state) :
  startup HOME fs stored = Done s0 ->
  index s0 = -1 /\ is_playing s0 = false /\ title s0 = ""
  /\ isEnabled (play_pause_button s0) = true
  /\ isEnabled (stop_button s0) = false
  /\ isEnabled (back_button s0) = false
  /\ isEnabled (forward_button s0) = false.
Proof.
  unfold startup, verify_location. cbn [location].
  destruct (negb (is_dir fs (Path.Path _))); cbn [mbind outcome_bind];
    (destruct (entries_sorted fs _); [|done]);
    cbn [mbind outcome_bind mret outcome_ret]; intros [= <-];
    rewrite add_items_eq; unfold change_volume; state_simpl; done.
Qed.

(** A stored location that is not a directory: the program starts in the
    home directory and has written that to the settings store. *)
Lemma startup_invalid_location (HOME : string) (fs : filesystem)
    (stored : gmap string QVariant) (l : string) :
  stored !! "location" = Some (VStr l) ->
  is_dir fs (Path.Path l) = false ->
  is_dir fs (Path.Path HOME) = true ->
  exists s0,
    startup HOME fs stored = Done s0
    /\ location s0 = HOME
    /\ settings s0 !! "location" = Some (VStr HOME).
Proof.
  intros Hstored Hl HH. unfold startup, verify_location.
  rewrite Hstored. cbn [location]. rewrite Hl. cbn [negb].
  state_simpl. rewrite entries_sorted_Done by done.
  cbn [mbind outcome_bind mret outcome_ret].
  eexists. split; [done|]. rewrite add_items_eq.
  unfold change_volume. state_simpl. split; [done|].
  rewrite lookup_insert_ne by done. apply lookup_insert_eq.
Qed.

(** In a Loaded state [play_pause] flips Playing and Paused and sends the
    matching command. *)
Lemma play_pause_flips (s : state) :
  let s' := play_pause s in
  is_playing s' = negb (is_playing s)
  /\ index s' = index s
  /\ trace s' = trace s ++ [if is_playing s then PlayerPause else PlayerPlay].
Proof. unfold play_pause. by destruct (is_playing s). Qed.

(** C5 fails on the code at startup.  The play/pause button is created
    enabled and only [stop] ever disables it, so in the Stopped state the
    program starts in a click on it reaches [play_pause], which sends the
    play command and sets [is_playing] with [index] still -1. *)
Theorem play_pause_at_startup (HOME : string) (fs : filesystem)
    (stored : gmap string QVariant) (s0 : state) :
  startup HOME fs stored = Done s0 ->
  Stopped s0
  /\ exists s1,
       dispatch HOME fs PlayPauseClicked s0 = Done s1
       /\ is_playing s1 = true /\ index s1 = -1
       /\ trace s1 = trace s0 ++ [PlayerPlay].
Proof.
  intros H. apply startup_state in H as (Hi & Hp & _ & He & _).
  split; [done|]. exists (play_pause s0).
  unfold dispatch, clicked. rewrite He. split; [done|].
  unfold play_pause. rewrite Hp. by state_simpl.
Qed.

Lemma play_pause_at_startup_witness :
  exists s1,
    dispatch Example.HOME Example.fs PlayPauseClicked (Example.state_after [])
    = Done s1
    /\ is_playing s1 = true /\ index s1 = -1.
Proof.
  assert (H0 : startup Example.HOME Example.fs ∅
               = Done (Example.state_after []))
    by (vm_compute; reflexivity).
  destruct (play_pause_at_startup Example.HOME Example.fs ∅
              (Example.state_after []) H0)
    as (_ & s1 & H1 & H2 & H3 & _).
  exists s1. split; [exact H1|]. split; [exact H2 | exact H3].
Defined.

(** ** What a handler leaves alone *)

Lemma verify_location_frame (HOME : string) (fs : filesystem) (s : state) :
  let s' := verify_location HOME fs s in
  playback s' = playback s /\ files_list s' = files_list s
  /\ exists l, trace s' = trace s ++ l.
Proof.
  unfold verify_location.
  destruct (negb (is_dir fs (Path.Path (location s)))); simpl.
  - repeat split. by eexists.
  - repeat split. exists []. by rewrite app_nil_r.
Qed.

Lemma update_files_frame (HOME : string) (fs : filesystem) (s s' : state) :
  update_files HOME fs s = Done s' ->
  playback s' = playback s /\ exists l, trace s' = trace s ++ l.
Proof.
  intros H. apply update_files_inv in H as [_ ->].
  destruct (verify_location_frame HOME fs s) as (Hp & _ & Ht).
  split; [exact Hp | exact Ht].
Qed.

Lemma change_location_frame (HOME : string) (fs : filesystem)
    (s s' : state) :
  change_location HOME fs s = Done s' ->
  playback s' = playback s
  /\ (List.length (trace s) < List.length (trace s'))%nat.
Proof.
  unfold change_location. intros H.
  apply update_files_frame in H as [Hp [l Hl]]. split; [exact Hp|].
  rewrite Hl. unfold save_setting, emit; simpl.
  rewrite !length_app; simpl. lia.
Qed.

(** [double_click] either opens a folder, leaving the playback part alone,
    or loads a file of the list it was given; it always sends something. *)
Lemma double_click_cases (HOME : string) (fs : filesystem)
    (item : option nat) (s s' : state) :
  double_click HOME fs item s = Done s' ->
  (List.length (trace s) < List.length (trace s'))%nat
  /\ (playback s' = playback s
      \/ (items (files_list s') = items (files_list s)
          /\ 0 <= index s' < ListWidget.count (files_list s')
          /\ is_playing s' = true)).
Proof.
  destruct item as [row|]; [|done].
  destruct (ListWidget.text row (files_list s)) as [text|] eqn:Ht;
    [|by unfold double_click; rewrite Ht].
  destruct (is_dir fs (Path.truediv (location s) text)) eqn:Hdir.
  - unfold double_click. rewrite Ht, Hdir. intros H.
    apply change_location_frame in H as [Hp Hl]. split; [exact Hl|].
    left. exact Hp.
  - destruct (double_click_file HOME fs row text s Ht Hdir)
      as (s1 & Hs1 & Hi & Hpl & _ & Hitems & _ & Htr & _).
    rewrite Hs1. intros [= <-]. split.
    + rewrite Htr, length_app; simpl. lia.
    + right. split; [exact Hitems|]. split; [|exact Hpl].
      apply lookup_lt_Some in Ht. unfold ListWidget.count.
      rewrite Hi, Hitems. lia.
Qed.


(** ** The skip handlers *)

Lemma currentItem_in_bounds (i : Z) (w : QListWidget) :
  in_bounds i w = true ->
  ListWidget.currentItem (ListWidget.setCurrentRow i w) = Some (Z.to_nat i).
Proof.
  unfold in_bounds, ListWidget.currentItem, ListWidget.setCurrentRow.
  intros H. cbn [currentRow]. rewrite H.
  change (ListWidget.count {| items := items w; currentRow := i |})
    with (ListWidget.count w). by rewrite H.
Qed.


Lemma text_in_bounds (i : Z) (w : QListWidget) :
  in_bounds i w = true -> is_Some (ListWidget.text (Z.to_nat i) w).
Proof.
  unfold in_bounds, ListWidget.text, ListWidget.count.
  intros [H1 H2]%andb_true_iff. apply Z.leb_le in H1. apply Z.ltb_lt in H2.
  apply lookup_lt_is_Some. lia.
Qed.

(** [next] is a double click on the row after [index], when there is one. *)
Lemma next_eq (HOME : string) (fs : filesystem) (s : state) :
  -1 <= index s ->
  next HOME fs s
  = if in_bounds (index s + 1) (files_list s)
    then dispatch HOME fs (ItemDoubleClicked (Z.to_nat (index s + 1))) s
    else Done s.
Proof.
  intros Hi. unfold next.
  destruct (index s <? ListWidget.count (files_list s) - 1) eqn:Hg.
  - apply Z.ltb_lt in Hg.
    assert (Hb : in_bounds (index s + 1) (files_list s) = true).
    { unfold in_bounds. apply andb_true_iff.
      split; [apply Z.leb_le|apply Z.ltb_lt]; lia. }
    rewrite Hb. cbn [files_list set_files_list].
    rewrite currentItem_in_bounds by done.
    rewrite dispatch_double_click by by apply text_in_bounds.
    apply double_click_row_irrelevant.
  - apply Z.ltb_ge in Hg.
    assert (Hb : in_bounds (index s + 1) (files_list s) = false).
    { unfold in_bounds. apply andb_false_iff. right. apply Z.ltb_ge. lia. }
    by rewrite Hb.
Qed.







(** ** The invariant *)

(** What one event can do to [index], [is_playing] and the rows: leave the
    first two alone, load a row of the list as it is, stop, or (play/pause
    only) toggle [is_playing]. *)
Lemma dispatch_effect (HOME : string) (fs : filesystem) (e : event)
    (s s' : state) :
  dispatch HOME fs e s = Done s' ->
  (index s' = index s /\ is_playing s' = is_playing s)
  \/ (items (files_list s') = items (files_list s)
      /\ 0 <= index s' < ListWidget.count (files_list s')
      /\ is_playing s' = true)
  \/ (items (files_list s') = items (files_list s)
      /\ index s' = -1 /\ is_playing s' = false)
  \/ (e = PlayPauseClicked
      /\ items (files_list s') = items (files_list s)
      /\ index s' = index s).
Proof.
  assert (Hdc : forall item t,
            index t = index s -> is_playing t = is_playing s ->
            items (files_list t) = items (files_list s) ->
            double_click HOME fs item t = Done s' ->
            (index s' = index s /\ is_playing s' = is_playing s)
            \/ (items (files_list s') = items (files_list s)
                /\ 0 <= index s' < ListWidget.count (files_list s')
                /\ is_playing s' = true)
            \/ (items (files_list s') = items (files_list s)
                /\ index s' = -1 /\ is_playing s' = false)
            \/ (e = PlayPauseClicked
                /\ items (files_list s') = items (files_list s)
                /\ index s' = index s)).
  { intros item t Hi Hp Hit H.
    apply double_click_cases in H as [_ [Hpb|(H1 & H2 & H3)]].
    - left. unfold playback in Hpb. injection Hpb as -> -> _ _ _. done.
    - right; left. by rewrite H1. }
  assert (Hrel : forall t,
            index t = index s -> is_playing t = is_playing s ->
            update_files HOME fs t = Done s' ->
            index s' = index s /\ is_playing s' = is_playing s).
  { intros t Hi Hp H. apply update_files_frame in H as [Hpb _].
    unfold playback in Hpb. injection Hpb as -> -> _ _ _. done. }
  destruct e; unfold dispatch, clicked.
  - destruct (isEnabled (back_button s)); [|intros [= <-]; by left].
    unfold previous. destruct (0 <? index s); [|intros [= <-]; by left].
    by apply Hdc.
  - destruct (isEnabled (stop_button s)); intros [= <-]; [|by left].
    right; right; left. done.
  - destruct (isEnabled (play_pause_button s)); intros [= <-]; [|by left].
    right; right; right. unfold play_pause.
    by destruct (is_playing s).
  - destruct (isEnabled (forward_button s)); [|intros [= <-]; by left].
    unfold next.
    destruct (index s <? _); [|intros [= <-]; by left].
    by apply Hdc.
  - destruct (ListWidget.text row (files_list s)); [|intros [= <-]; by left].
    by apply Hdc.
  - unfold home, change_location. intros H. left.
    eapply Hrel; [| |exact H]; done.
  - intros H. left.
    eapply Hrel; [| |exact H]; done.
  - unfold go_up, change_location. intros H. left.
    eapply Hrel; [| |exact H]; done.
  - intros [= <-]. by left.
  - intros [= <-]. by left.
  - intros [= <-]. by left.
  - intros [= <-]. by left.
  - intros [= <-]. by left.
  - unfold finished. destruct (bool_decide _); [|intros [= <-]; by left].
    unfold next.
    destruct (index s <? _); [|intros [= <-]; by left].
    by apply Hdc.
  - intros [= <-]. by left.
Qed.


(** [index] never goes below -1. *)
Lemma run_index (HOME : string) (steps : list (filesystem * event))
    (s s' : state) :
  run HOME steps s = Done s' -> -1 <= index s -> -1 <= index s'.
Proof.
  revert s. induction steps as [|[fs e] steps IH]; intros s.
  - by intros [= <-].
  - cbn [run]. destruct (dispatch HOME fs e s) as [s1|] eqn:Hs1; [|done].
    cbn [mbind outcome_bind]. intros Hrun Hi. apply (IH s1 Hrun).
    apply dispatch_effect in Hs1.
    destruct Hs1 as [[H _]|[(_ & H & _)|[(_ & H & _)|(_ & _ & H)]]]; lia.
Qed.

Lemma reachable_index (HOME : string) (s : state) :
  reachable HOME s -> -1 <= index s.
Proof.
  intros (fs0 & stored & steps & H).
  destruct (startup HOME fs0 stored) as [s0|] eqn:Hs0; [|done].
  cbn [mbind outcome_bind] in H. apply (run_index _ _ _ _ H).
  apply startup_state in Hs0 as [-> _]. lia.
Qed.




(** * More properties of the script *)

(** ** The shape of a handled event *)

Lemma reachable_induction (HOME : string) (P : state -> Prop) :
  (forall fs stored s0, startup HOME fs stored = Done s0 -> P s0) ->
  (forall fs e s s', P s -> dispatch HOME fs e s = Done s' -> P s') ->
  forall s, reachable HOME s -> P s.
Proof.
  intros H0 Hstep s (fs0 & stored & steps & H).
  destruct (startup HOME fs0 stored) as [s0|] eqn:Hs0; [|done].
  cbn [mbind outcome_bind] in H.
  assert (Hs : P s0) by eauto. clear Hs0.
  revert s0 Hs H. induction steps as [|[fs e] steps IH]; intros s0 Hs.
  - by intros [= <-].
  - cbn [run]. destruct (dispatch HOME fs e s0) as [s1|] eqn:Hs1; [|done].
    cbn [mbind outcome_bind]. apply IH. by eapply Hstep.
Qed.

(** The fields the file branch of [double_click] leaves alone. *)
Lemma double_click_file_rest (HOME : string) (fs : filesystem) (row : nat)
    (text : string) (s s' : state) :
  ListWidget.text row (files_list s) = Some text ->
  is_dir fs (Path.truediv (location s) text) = false ->
  double_click HOME fs (Some row) s = Done s' ->
  settings s' = settings s /\ volume s' = volume s
  /\ is_muted s' = is_muted s /\ current s' = current s
  /\ length s' = length s /\ time_bar s' = time_bar s
  /\ volume_bar s' = volume_bar s
  /\ currentRow (files_list s') = Z.of_nat row.
Proof.
  intros Ht Hdir. unfold double_click. rewrite Ht, Hdir. intros [= <-].
  apply lookup_lt_Some in Ht.
  assert (Hrow : (0 <=? Z.of_nat row)
                 && (Z.of_nat row <? ListWidget.count (files_list s)) = true).
  { unfold ListWidget.count. apply andb_true_iff.
    split; [apply Z.leb_le|apply Z.ltb_lt]; lia. }
  rewrite update_skip_buttons_eq.
  unfold ListWidget.setCurrentItem, ListWidget.setCurrentRow.
  state_simpl. by rewrite Hrow.
Qed.

(** What [double_click] can have done when it returns. *)
Lemma double_click_Done (HOME : string) (fs : filesystem)
    (item : option nat) (s s' : state) :
  double_click HOME fs item s = Done s' ->
  (exists row text,
      item = Some row
      /\ ListWidget.text row (files_list s) = Some text
      /\ is_dir fs (Path.truediv (location s) text) = false)
  \/ (exists row text,
        item = Some row
        /\ ListWidget.text row (files_list s) = Some text
        /\ is_dir fs (Path.truediv (location s) text) = true
        /\ update_files HOME fs
             (save_setting "location"
                (VStr (Path.str (Path.truediv (location s) text)))
                (set_location (Path.str (Path.truediv (location s) text)) s))
           = Done s').
Proof.
  destruct item as [row|]; [|done].
  destruct (ListWidget.text row (files_list s)) as [text|] eqn:Ht;
    [|by unfold double_click; rewrite Ht].
  destruct (is_dir fs (Path.truediv (location s) text)) eqn:Hdir.
  - unfold double_click. rewrite Ht, Hdir. intros H.
    right. exists row, text. by repeat split.
  - intros _. left. exists row, text. by repeat split.
Qed.

Lemma dispatch_cases (HOME : string) (fs : filesystem) (e : event)
    (s s' : state) :
  dispatch HOME fs e s = Done s' ->
  s' = s \/ s' = stop s \/ s' = play_pause s \/ s' = mute s
  \/ (exists v, s' = change_volume v s)
  \/ (exists t, s' = change_time t s)
  \/ (exists ms, s' = update_length ms s)
  \/ (exists ms, s' = update_current ms s)
  \/ s' = save_window_geometry s
  \/ (exists row text,
        ListWidget.text row (files_list s) = Some text
        /\ is_dir fs (Path.truediv (location s) text) = false
        /\ double_click HOME fs (Some row) s = Done s')
  \/ update_files HOME fs s = Done s'
  \/ (exists l,
        update_files HOME fs
          (save_setting "location" (VStr l) (set_location l s)) = Done s').
Proof.
  assert (Hdc : forall item r,
            double_click HOME fs item
              (set_files_list (ListWidget.setCurrentRow r (files_list s)) s)
            = Done s' ->
            (exists row text,
                ListWidget.text row (files_list s) = Some text
                /\ is_dir fs (Path.truediv (location s) text) = false
                /\ double_click HOME fs (Some row) s = Done s')
            \/ (exists l,
                  update_files HOME fs
                    (save_setting "location" (VStr l) (set_location l s))
                  = Done s')).
  { intros item r. rewrite double_click_row_irrelevant. intros H.
    destruct (double_click_Done _ _ _ _ _ H)
      as [(row & text & -> & Ht & Hd)|(row & text & -> & Ht & Hd & Hu)].
    - left. by exists row, text.
    - right. by eexists. }
  destruct e; unfold dispatch, clicked.
  - destruct (isEnabled (back_button s)); [|intros [= <-]; by left].
    unfold previous. destruct (0 <? index s); [|intros [= <-]; by left].
    intros H. apply Hdc in H. tauto.
  - destruct (isEnabled (stop_button s)); intros [= <-]; tauto.
  - destruct (isEnabled (play_pause_button s)); intros [= <-]; tauto.
  - destruct (isEnabled (forward_button s)); [|intros [= <-]; by left].
    unfold next. destruct (index s <? _); [|intros [= <-]; by left].
    intros H. apply Hdc in H. tauto.
  - destruct (ListWidget.text row (files_list s)); [|intros [= <-]; by left].
    intros H. apply Hdc in H. tauto.
  - unfold home, change_location. intros H. do 11 right. by eexists.
  - intros H. tauto.
  - unfold go_up, change_location. intros H. do 11 right. by eexists.
  - intros [= <-]. tauto.
  - intros [= <-]. do 4 right; left. by eexists.
  - intros [= <-]. do 5 right; left. by eexists.
  - intros [= <-]. do 6 right; left. by eexists.
  - intros [= <-]. do 7 right; left. by eexists.
  - unfold finished. destruct (bool_decide _); [|intros [= <-]; by left].
    unfold next. destruct (index s <? _); [|intros [= <-]; by left].
    intros H. apply Hdc in H. tauto.
  - intros [= <-]. tauto.
Qed.

Lemma verify_location_cases (HOME : string) (fs : filesystem) (s : state) :
  (is_dir fs (Path.Path (location s)) = true
   /\ verify_location HOME fs s = s)
  \/ (is_dir fs (Path.Path (location s)) = false
      /\ verify_location HOME fs s
         = save_setting "location" (VStr HOME) (set_location HOME s)).
Proof.
  unfold verify_location.
  destruct (is_dir fs (Path.Path (location s))); [by left|by right].
Qed.

(** A returning [update_files], spelled out. *)
Lemma update_files_cases (HOME : string) (fs : filesystem) (t s' : state) :
  update_files HOME fs t = Done s' ->
  exists w,
    (is_dir fs (Path.Path (location t)) = true /\ s' = set_files_list w t)
    \/ (is_dir fs (Path.Path (location t)) = false
        /\ is_dir fs (Path.Path HOME) = true
        /\ s' = set_files_list w
                  (save_setting "location" (VStr HOME) (set_location HOME t))).
Proof.
  intros H. apply update_files_inv in H as [Hdir ->]. cbv zeta in Hdir.
  destruct (verify_location_cases HOME fs t) as [[Ht Hv]|[Ht Hv]];
    rewrite Hv in *; eexists.
  - left. split; [exact Ht|reflexivity].
  - right. split; [exact Ht|]. split; [exact Hdir|reflexivity].
Qed.

(** The start state, spelled out. *)
Lemma startup_cases (HOME : string) (fs : filesystem)
    (stored : gmap string QVariant) (s0 : state) :
  startup HOME fs stored = Done s0 ->
  let l0 := stored_location HOME stored in
  let v0 := stored_volume stored in
  let s1 :=
    {| location := l0; volume := v0; current := 0;
       index := -1; is_muted := false; is_playing := false;
       length := 0; title := "";
       files_list := {| items := []; currentRow := -1 |};
       back_button := setEnabled false new_button;
       stop_button := setEnabled false new_button;
       play_pause_button := new_button;
       forward_button := setEnabled false new_button;
       time_bar := Slider.new 0 0 0;
       volume_bar := Slider.new 0 100 v0;
       settings := stored; trace := [] |} in
  let s2 := verify_location HOME fs s1 in
  is_dir fs (Path.Path (location s2)) = true
  /\ s0 = set_files_list
            {| items := List.map Path.name (listing fs (location s2));
               currentRow := -1 |}
            (change_volume v0 s2).
Proof.
  unfold startup. fold (stored_location HOME stored) (stored_volume stored).
  cbv zeta.
  match goal with
  | |- context [entries_sorted fs (location ?s)] => set (s2 := s)
  end.
  destruct (entries_sorted fs (location s2)) as [es|] eqn:Hes; [|done].
  apply entries_sorted_inv in Hes as [Hdir ->].
  cbn [mbind outcome_bind mret outcome_ret]. intros [= <-].
  split; [exact Hdir|].
  rewrite add_items_eq.
  assert (Hv : volume s2 = stored_volume stored).
  { unfold s2, verify_location. by destruct (negb _). }
  rewrite Hv. unfold change_volume. state_simpl.
  assert (Hw : files_list s2 = {| items := []; currentRow := -1 |}).
  { unfold s2, verify_location. by destruct (negb _). }
  by rewrite Hw.
Qed.

(** ** What holds in every state the program reaches *)

Lemma buttons_follow_index_step (HOME : string) (fs : filesystem)
    (e : event) (s s' : state) :
  buttons_follow_index s -> dispatch HOME fs e s = Done s' ->
  buttons_follow_index s'.
Proof.
  intros (Hst & Hb & Hf & Hp) H. apply dispatch_cases in H.
  destruct H as [->|[->|[->|[->|[[v ->]|[[t ->]|[[ms ->]|[[ms ->]|[->|
    [(row & text & Ht & Hd & H)|[H|[l H]]]]]]]]]]]];
    unfold buttons_follow_index.
  - done.
  - unfold stop, update_length, update_current.
    rewrite update_skip_buttons_eq. state_simpl. by repeat split.
  - unfold play_pause. destruct (is_playing s); state_simpl; done.
  - unfold mute. state_simpl. done.
  - unfold change_volume. state_simpl. done.
  - unfold change_time. state_simpl. done.
  - unfold update_length. state_simpl. done.
  - unfold update_current. state_simpl. done.
  - unfold save_window_geometry. state_simpl. done.
  - destruct (double_click_file HOME fs row text s Ht Hd)
      as (s1 & Hs1 & Hi & _ & _ & _ & _ & _ & Hbk & Hfw & Hstop & Hpp).
    rewrite Hs1 in H. injection H as <-.
    rewrite Hstop, Hbk, Hfw, Hpp, Hi.
    assert (Hne : (Z.of_nat row =? -1) = false) by (apply Z.eqb_neq; lia).
    rewrite Hne. repeat split; try done. intros _. lia.
  - apply update_files_cases in H as [w [[_ ->]|(_ & _ & ->)]];
      state_simpl; done.
  - apply update_files_cases in H as [w [[_ ->]|(_ & _ & ->)]];
      state_simpl; done.
Qed.

(** X3.  In every state the program reaches, the Stop button is enabled
    exactly when a file is loaded ([index <> -1]), the skip-back button
    exactly when [index > 0]; the skip-forward button is enabled only when a
    file is loaded, and the play/pause button is enabled whenever one is. *)
Theorem buttons_in_reachable_states (HOME : string) (s : state) :
  reachable HOME s -> buttons_follow_index s.
Proof.
  apply reachable_induction.
  - intros fs stored s0 H. apply startup_state in H.
    destruct H as (Hi & _ & _ & Hpp & Hst & Hb & Hf).
    unfold buttons_follow_index. rewrite Hi, Hst, Hb, Hf.
    repeat split; done.
  - intros fs e t t'. apply buttons_follow_index_step.
Qed.

Lemma buttons_in_reachable_states_witness :
  buttons_follow_index
    (Example.state_after [ItemDoubleClicked 4%nat; UpClicked]).
Proof.
  apply (buttons_in_reachable_states Example.HOME).
  exists Example.fs, ∅, (Example.events [ItemDoubleClicked 4%nat; UpClicked]).
  vm_compute; reflexivity.
Defined.






Ltac engine_simpl :=
  unfold engine_follows_state, output_volume, output_muted, play_requested
    in *;
  state_simpl; rewrite ?List.fold_left_app; cbn [List.fold_left].

Lemma engine_follows_state_step (HOME : string) (fs : filesystem)
    (e : event) (s s' : state) :
  engine_follows_state s -> dispatch HOME fs e s = Done s' ->
  engine_follows_state s'.
Proof.
  assert (Hsave : forall l t,
            engine_follows_state t ->
            engine_follows_state
              (save_setting "location" (VStr l) (set_location l t))).
  { intros l t Ht. by engine_simpl. }
  assert (Hnav : forall t,
            engine_follows_state t ->
            update_files HOME fs t = Done s' ->
            engine_follows_state s').
  { intros t Ht H.
    apply update_files_cases in H as [w [[_ ->]|(_ & _ & ->)]].
    - exact Ht.
    - by apply (Hsave HOME t). }
  intros Hs H. pose proof Hs as (Hv & Hm & Hp). apply dispatch_cases in H.
  destruct H as [->|[->|[->|[->|[[v ->]|[[t ->]|[[ms ->]|[[ms ->]|[->|
    [(row & text & Ht & Hd & H)|[H|[l H]]]]]]]]]]]].
  - done.
  - unfold stop, update_length, update_current.
    rewrite update_skip_buttons_eq. by engine_simpl.
  - unfold play_pause. destruct (is_playing s); by engine_simpl.
  - unfold mute. by engine_simpl.
  - unfold change_volume. by engine_simpl.
  - unfold change_time. by engine_simpl.
  - exact Hs.
  - exact Hs.
  - unfold save_window_geometry. by engine_simpl.
  - destruct (double_click_file HOME fs row text s Ht Hd)
      as (s1 & Hs1 & _ & Hpl & _ & _ & _ & Htr & _).
    destruct (double_click_file_rest HOME fs row text s s' Ht Hd H)
      as (_ & Hvol & Hmu & _).
    rewrite Hs1 in H. injection H as <-.
    unfold engine_follows_state, output_volume, output_muted, play_requested
      in *.
    rewrite Htr, Hvol, Hmu, Hpl, !List.fold_left_app. by cbn [List.fold_left].
  - by apply (Hnav s).
  - by apply (Hnav _ (Hsave l s Hs)).
Qed.

(** X5.  In every state the program reaches, the commands sent so far leave
    the audio output at the volume [volume] and muted exactly when
    [is_muted], and the last of the play, pause and stop commands sent to
    the player was play exactly when [is_playing]. *)
Theorem engine_in_reachable_states (HOME : string) (s : state) :
  reachable HOME s -> engine_follows_state s.
Proof.
  revert s. apply reachable_induction.
  - intros fs stored s0 H. apply startup_cases in H as [_ ->]. cbv zeta.
    match goal with
    | |- context [verify_location HOME fs ?x] =>
        destruct (verify_location_cases HOME fs x) as [[_ ->]|[_ ->]]
    end; unfold change_volume; by engine_simpl.
  - intros fs e t t'. apply engine_follows_state_step.
Qed.

Lemma engine_in_reachable_states_witness :
  engine_follows_state
    (Example.state_after
       [MuteClicked; ItemDoubleClicked 3%nat; VolumeBarMoved 30;
        PlayPauseClicked]).
Proof.
  apply (engine_in_reachable_states Example.HOME).
  exists Example.fs, ∅,
    (Example.events
       [MuteClicked; ItemDoubleClicked 3%nat; VolumeBarMoved 30;
        PlayPauseClicked]).
  vm_compute; reflexivity.
Defined.

(** ** What can go wrong *)





(** ** Navigation *)


Lemma update_files_idempotent (HOME : string) (fs : filesystem)
    (t s' : state) :
  update_files HOME fs t = Done s' -> update_files HOME fs s' = Done s'.
Proof.
  intros H. apply update_files_inv in H as [Hdir ->]. cbv zeta in Hdir.
  by rewrite update_files_valid.
Qed.



(** X7.  A folder that has just been listed refreshes to itself: after
    Home, Up, Refresh or the opening of a directory, Refresh on the same
    filesystem returns the state unchanged, with nothing sent or written. *)
Theorem refresh_after_listing (HOME : string) (fs : filesystem) (e : event)
    (s s' : state) :
  (e = HomeClicked \/ e = RefreshClicked \/ e = UpClicked
   \/ exists row text,
        e = ItemDoubleClicked row
        /\ ListWidget.text row (files_list s) = Some text
        /\ is_dir fs (Path.truediv (location s) text) = true) ->
  dispatch HOME fs e s = Done s' ->
  dispatch HOME fs RefreshClicked s' = Done s'.
Proof.
  intros He H. cbn [dispatch].
  destruct He as [->|[->|[->|(row & text & -> & Ht & Hd)]]].
  - by apply (update_files_idempotent _ _ _ _ H).
  - by apply (update_files_idempotent _ _ _ _ H).
  - by apply (update_files_idempotent _ _ _ _ H).
  - rewrite dispatch_double_click in H by eauto.
    unfold double_click in H. rewrite Ht, Hd in H.
    by apply (update_files_idempotent _ _ _ _ H).
Qed.

Lemma refresh_after_listing_witness :
  dispatch Example.HOME Example.fs RefreshClicked
    (Example.state_after [UpClicked])
  = Done (Example.state_after [UpClicked]).
Proof.
  apply (refresh_after_listing Example.HOME Example.fs UpClicked
           (Example.state_after [])).
  - right; right; left. reflexivity.
  - vm_compute; reflexivity.
Defined.

(** ** The start of the program *)



(** ** Mute, seek and the time callbacks *)

(** X10.  Mute toggles: two clicks send the audio output the opposite flag
    and then the flag it had, and leave the state as it was but for these
    two commands in the trace; one click touches neither the volume, the
    volume bar nor the settings store. *)
Theorem mute_twice (s : state) :
  mute (mute s)
  = set_trace
      (trace s ++ [OutputSetMuted (negb (is_muted s));
                   OutputSetMuted (is_muted s)]) s
  /\ is_muted (mute s) = negb (is_muted s)
  /\ volume (mute s) = volume s
  /\ volume_bar (mute s) = volume_bar s
  /\ settings (mute s) = settings s.
Proof.
  split; [|done]. destruct s. unfold mute, emit, set_trace, set_is_muted.
  simpl. by rewrite negb_involutive, <- app_assoc.
Qed.



(** X14.  With nothing loaded ([index = -1]) the skip-back handler does
    nothing, while the skip-forward handler, and so the end-of-media
    callback, is Select on the first row when the list has one and does
    nothing when the list is empty. *)
Theorem skip_when_stopped (HOME : string) (fs : filesystem) (s : state) :
  index s = -1 ->
  previous HOME fs s = Done s
  /\ next HOME fs s
     = (if bool_decide (items (files_list s) = []) then Done s
        else dispatch HOME fs (ItemDoubleClicked 0) s)
  /\ finished HOME fs EndOfMedia s = next HOME fs s.
Proof.
  intros Hi. split; [|split; [|done]].
  - unfold previous. by rewrite Hi.
  - rewrite next_eq by lia. rewrite Hi. unfold in_bounds, ListWidget.count.
    destruct (items (files_list s)) as [|x l]; [done|].
    rewrite bool_decide_eq_false_2 by done.
    assert (H : (0 <=? -1 + 1)
                && (-1 + 1 <? Z.of_nat (List.length (x :: l))) = true).
    { apply andb_true_iff. split; [done|]. apply Z.ltb_lt.
      cbn [List.length]. lia. }
    by rewrite H.
Qed.

Lemma skip_when_stopped_witness :
  next Example.HOME Example.fs (Example.state_after [])
  = dispatch Example.HOME Example.fs (ItemDoubleClicked 0)
      (Example.state_after []).
Proof.
  set (s := Example.state_after []).
  assert (Hi : index s = -1) by (vm_compute; reflexivity).
  rewrite (proj1 (proj2 (skip_when_stopped Example.HOME Example.fs s Hi))).
  assert (Hne : bool_decide (items (files_list s) = []) = false)
    by (vm_compute; reflexivity).
  by rewrite Hne.
Defined.

(** ** Joining a folder and a name *)

Lemma string_app_cons (x : ascii) (a t : string) :
  (String x a ++ t)%string = String x (a ++ t)%string.
Proof. done. Qed.

Lemma string_app_assoc (a b c : string) :
  ((a ++ b) ++ c = a ++ (b ++ c))%string.
Proof.
  induction a as [|x a IH]; [done|]. by rewrite !string_app_cons, IH.
Qed.

Lemma startswith_empty : Str.startswith "" "/" = false.
Proof. done. Qed.

Lemma eqb_sep (c : ascii) :
  Ascii.eqb c posixpath.sep = true -> c = "/"%char.
Proof. intros H. by apply Ascii.eqb_eq in H. Qed.

(** What follows a path does not change its root, unless the path is
    nothing but one or two slashes. *)
Lemma splitroot_app (a t : string) :
  a <> "" ->
  (a = "/" \/ a = "//" -> Str.startswith t "/" = false) ->
  posixpath.splitroot (a ++ t)
  = (fst (posixpath.splitroot a), (snd (posixpath.splitroot a) ++ t)%string).
Proof.
  destruct a as [|c1 a1]; [done|]. intros _ Ht.
  rewrite string_app_cons. unfold posixpath.splitroot.
  rewrite !startswith_sep.
  destruct (Ascii.eqb c1 posixpath.sep) eqn:H1; cbn [negb fst snd]; [|done].
  apply eqb_sep in H1 as ->. cbn [Str.drop].
  destruct a1 as [|c2 a2].
  - change ("" ++ t)%string with t. rewrite Ht by by left.
    by rewrite startswith_empty.
  - rewrite string_app_cons, !startswith_sep.
    destruct (Ascii.eqb c2 posixpath.sep) eqn:H2;
      cbn [negb orb fst snd Str.drop]; [|done].
    apply eqb_sep in H2 as ->.
    destruct a2 as [|c3 a3].
    + change ("" ++ t)%string with t. rewrite Ht by by right.
      by rewrite startswith_empty.
    + rewrite string_app_cons, !startswith_sep.
      by destruct (Ascii.eqb c3 posixpath.sep).
Qed.

Lemma split_app_sep (x y : string) (c : ascii) :
  Str.split (x ++ String c y) c = Str.split x c ++ Str.split y c.
Proof.
  induction x as [|a x IH].
  - change ("" ++ String c y)%string with (String c y).
    cbn [Str.split]. by rewrite Ascii.eqb_refl.
  - rewrite string_app_cons. cbn [Str.split].
    destruct (Ascii.eqb a c); [by rewrite IH|].
    rewrite IH. destruct (Str.split x c) eqn:Hx; [|done].
    by destruct (split_not_nil x c).
Qed.

(** A path followed by a slash and more: the root stays, the components of
    what follows are added. *)
Lemma Path_app_sep (x y : string) :
  x <> "" -> x <> "/" -> x <> "//" ->
  Path.Path (x ++ String posixpath.sep y)
  = Path.mk (Path.root (Path.Path x))
      (Path.parts (Path.Path x)
       ++ List.filter Path.keep_part (Str.split y posixpath.sep)).
Proof.
  intros H0 H1 H2. unfold Path.Path.
  rewrite splitroot_app by (try done; intros [?|?]; done).
  destruct (posixpath.splitroot x) as [r rel].
  cbn [fst snd Path.root Path.parts].
  by rewrite split_app_sep, List.filter_app.
Qed.

Lemma endswith_char_inv (a : string) (c : ascii) :
  Str.endswith_char a c = true -> exists a0, a = (a0 ++ String c "")%string.
Proof.
  induction a as [|x a IH]; [done|]. cbn [Str.endswith_char].
  destruct a as [|y a].
  - intros H. apply Ascii.eqb_eq in H as ->. by exists "".
  - intros H. destruct (IH H) as [a0 ->]. by exists (String x a0).
Qed.

(** [Path(a) / n] for a list entry [n] is the child that [iterdir] builds. *)
Lemma truediv_simple (a n : string) :
  simple_name n ->
  Path.truediv a n = Path.make_child_relpath (Path.Path a) n.
Proof.
  intros [Hk Hs]. destruct (part_head n Hk Hs) as (c & n' & -> & Hc).
  assert (Hf : List.filter Path.keep_part
                 (Str.split (String c n') posixpath.sep) = [String c n']).
  { rewrite Hs. cbn [List.filter]. by rewrite Hk. }
  assert (Hgen : forall x,
            x <> "" -> x <> "/" -> x <> "//" ->
            Path.Path (x ++ String posixpath.sep (String c n'))
            = Path.make_child_relpath (Path.Path x) (String c n')).
  { intros x H0 H1 H2. rewrite Path_app_sep by done. by rewrite Hf. }
  unfold Path.truediv, posixpath.join. rewrite startswith_sep, Hc.
  destruct (decide (a = "")) as [->|Ha].
  - cbn [String.eqb orb]. change ("" ++ String c n')%string with (String c n').
    unfold Path.Path. rewrite splitroot_relative by done.
    rewrite Hf. by vm_compute.
  - assert (Hne : String.eqb a "" = false) by by apply String.eqb_neq.
    rewrite Hne. cbn [orb].
    destruct (Str.endswith_char a posixpath.sep) eqn:He.
    + destruct (endswith_char_inv _ _ He) as [a0 ->].
      rewrite string_app_assoc.
      change (String posixpath.sep "" ++ String c n')%string
        with (String posixpath.sep (String c n')).
      destruct (decide (a0 = "")) as [->|H0];
        [|destruct (decide (a0 = "/")) as [->|H1];
          [|destruct (decide (a0 = "//")) as [->|H2]]].
      * change ("" ++ String posixpath.sep (String c n'))%string
          with (String "/" (String c n')).
        unfold Path.Path at 1. rewrite splitroot_one_slash by done.
        rewrite Hf. by vm_compute.
      * change ("/" ++ String posixpath.sep (String c n'))%string
          with (String "/" (String "/" (String c n'))).
        unfold Path.Path at 1. rewrite splitroot_two_slashes by done.
        rewrite Hf. by vm_compute.
      * change ("//" ++ String posixpath.sep (String c n'))%string
          with (String "/" (String "/" (String "/" (String c n')))).
        unfold Path.Path at 1, posixpath.splitroot. cbn [Str.drop].
        rewrite !startswith_sep.
        change (Ascii.eqb "/" posixpath.sep) with true. cbn [negb orb].
        change (String "/" (String "/" (String c n')))
          with ("" ++ String posixpath.sep
                        ("" ++ String posixpath.sep (String c n')))%string.
        rewrite !split_app_sep, Hs.
        change (Str.split "" posixpath.sep) with [""].
        change ([""] ++ [""] ++ [String c n'])
          with [""; ""; String c n'].
        cbn [List.filter].
        change (Path.keep_part "") with false. cbn iota.
        rewrite Hk. by vm_compute.
      * rewrite Hgen by done. f_equal.
        rewrite (Path_app_sep a0 "") by done.
        change (List.filter Path.keep_part (Str.split "" posixpath.sep))
          with (@nil string).
        rewrite app_nil_r. by destruct (Path.Path a0).
    + change (a ++ "/" ++ String c n')%string
        with (a ++ String posixpath.sep (String c n'))%string.
      apply Hgen; [done|..]; by intros ->.
Qed.


(** ** Selecting a file; opening a folder and coming back *)

(** X1.  Select on an entry that is not a directory loads it and plays it:
    the player gets the path of the entry as its source and then the play
    command; [index] and the current row are the row of the entry,
    [is_playing] is set, [title] is the name of the entry (the text of the
    row, for a name as a folder listing gives it); the Stop and play/pause
    buttons are enabled; the rows, the location, the settings, the volume
    and the two times stay as they were. *)
Theorem select_file (HOME : string) (fs : filesystem) (s : state)
    (row : nat) (text : string) :
  ListWidget.text row (files_list s) = Some text ->
  is_dir fs (Path.truediv (location s) text) = false ->
  exists s',
    dispatch HOME fs (ItemDoubleClicked row) s = Done s'
    /\ trace s'
       = trace s ++ [PlayerSetSource
                       (Path.str (Path.truediv (location s) text));
                     PlayerPlay]
    /\ index s' = Z.of_nat row /\ is_playing s' = true
    /\ title s' = Path.name (Path.truediv (location s) text)
    /\ (simple_name text -> title s' = text)
    /\ files_list s'
       = {| items := items (files_list s); currentRow := Z.of_nat row |}
    /\ isEnabled (stop_button s') = true
    /\ isEnabled (play_pause_button s') = true
    /\ location s' = location s /\ settings s' = settings s
    /\ volume s' = volume s
    /\ current s' = current s /\ length s' = length s.
Proof.
  intros Ht Hd.
  destruct (double_click_file HOME fs row text s Ht Hd)
    as (s' & Hs' & Hi & Hp & Hti & Hit & Hloc & Htr & _ & _ & Hst & Hpp).
  destruct (double_click_file_rest HOME fs row text s s' Ht Hd Hs')
    as (Hset & Hvol & _ & Hcur & Hlen & _ & _ & Hrow).
  exists s'. split; [by rewrite dispatch_double_click by eauto|].
  repeat split; try done.
  - intros Hn. by rewrite Hti, truediv_simple, name_make_child_relpath.
  - destruct (files_list s') as [its r]. cbn in Hit, Hrow. by subst.
Qed.

Lemma select_file_witness :
  exists s',
    dispatch Example.HOME Example.fs (ItemDoubleClicked 2)
      (Example.state_after []) = Done s'
    /\ index s' = 2 /\ is_playing s' = true.
Proof.
  set (s := Example.state_after []).
  assert (Ht : ListWidget.text 2 (files_list s) = Some "a.MP3")
    by (vm_compute; reflexivity).
  assert (Hd : is_dir Example.fs (Path.truediv (location s) "a.MP3") = false)
    by (vm_compute; reflexivity).
  destruct (select_file Example.HOME Example.fs s 2 "a.MP3" Ht Hd)
    as (s' & Hs' & _ & Hi & Hp & _).
  exists s'. split; [exact Hs'|]. split; [exact Hi | exact Hp].
Defined.



(** ** The time labels *)

Lemma string_length_app (a b : string) :
  String.length (a ++ b) = (String.length a + String.length b)%nat.
Proof.
  induction a as [|x a IH]; [done|].
  rewrite string_app_cons. cbn [String.length]. by rewrite IH.
Qed.

Lemma format_02_two_chars (x : Z) :
  0 <= x < 100 -> String.length (Text.format_02 x) = 2%nat.
Proof.
  intros Hx.
  assert (Hall : List.forallb
                   (fun n => Nat.eqb (String.length
                                        (Text.format_02 (Z.of_nat n))) 2)
                   (List.seq 0 100) = true) by (vm_compute; reflexivity).
  rewrite List.forallb_forall in Hall.
  specialize (Hall (Z.to_nat x)). rewrite Z2Nat.id in Hall by lia.
  apply Nat.eqb_eq, Hall, List.in_seq. lia.
Qed.

(** Decimal digits hold no colon. *)
Lemma split_uint (d : Decimal.uint) :
  Str.split (NilEmpty.string_of_uint d) ":" = [NilEmpty.string_of_uint d].
Proof.
  induction d as [|d IH|d IH|d IH|d IH|d IH|d IH|d IH|d IH|d IH|d IH];
    [done|..]; cbn [NilEmpty.string_of_uint Str.split];
    match goal with
    | |- context [Ascii.eqb ?a ?b] => change (Ascii.eqb a b) with false
    end; cbn iota; by rewrite IH.
Qed.

Lemma split_str_of_int (z : Z) :
  Str.split (Text.str_of_int z) ":" = [Text.str_of_int z].
Proof.
  assert (Hu : forall d,
            Str.split (NilZero.string_of_uint d) ":"
            = [NilZero.string_of_uint d]).
  { intros d. destruct d; try apply split_uint. done. }
  unfold Text.str_of_int, NilZero.string_of_int.
  destruct (Z.to_int z) as [d|d]; [apply Hu|].
  cbn [Str.split]. change (Ascii.eqb "-" ":") with false. cbn iota.
  by rewrite Hu.
Qed.

Lemma split_format_02 (z : Z) :
  Str.split (Text.format_02 z) ":" = [Text.format_02 z].
Proof.
  unfold Text.format_02. destruct (Str.len _ <? 2); [|apply split_str_of_int].
  cbn [Str.split]. change (Ascii.eqb "0" ":") with false. cbn iota.
  by rewrite split_str_of_int.
Qed.

Lemma int_of_str_of_int (z : Z) :
  Text.int_of_str (Text.str_of_int z) = Some z.
Proof.
  unfold Text.int_of_str, Text.str_of_int.
  rewrite NilZero.isi.
  - cbn [fmap option_fmap option_map]. by rewrite DecimalZ.of_to.
  - destruct z; cbn; [done| |done].
    intros [= H]. by apply DecimalPos.Unsigned.to_uint_nonnil in H.
  - destruct z; cbn; [done|done|].
    intros [= H]. by apply DecimalPos.Unsigned.to_uint_nonnil in H.
Qed.

Lemma int_of_format_02 (z : Z) :
  Text.int_of_str (Text.format_02 z) = Some z.
Proof.
  unfold Text.format_02.
  destruct (Str.len (Text.str_of_int z) <? 2) eqn:Hlen;
    [|apply int_of_str_of_int].
  destruct z as [|p|p].
  - done.
  - unfold Text.int_of_str, Text.str_of_int, NilZero.int_of_string.
    cbn [Z.to_int NilZero.string_of_int].
    change (Ascii.eqb "0" "-") with false. cbn iota.
    pose proof (DecimalPos.Unsigned.to_uint_nonnil p) as Hnn.
    unfold NilZero.uint_of_string.
    assert (Hs : NilZero.string_of_uint (Pos.to_uint p)
                 = NilEmpty.string_of_uint (Pos.to_uint p))
      by by destruct (Pos.to_uint p).
    rewrite Hs. cbn [NilEmpty.uint_of_string]. rewrite NilEmpty.usu.
    cbn [uint_of_char option_map fmap option_fmap].
    change (Z.of_int (Decimal.Pos (D0 (Pos.to_uint p))))
      with (Z.of_int (Decimal.Pos (Pos.to_uint p))).
    change (Decimal.Pos (Pos.to_uint p)) with (Z.to_int (Z.pos p)).
    by rewrite DecimalZ.of_to.
  - exfalso. unfold Text.str_of_int, Str.len in Hlen.
    cbn [Z.to_int NilZero.string_of_int String.length] in Hlen.
    pose proof (DecimalPos.Unsigned.to_uint_nonnil p) as Hnn.
    destruct (Pos.to_uint p) eqn:Hp; [done|..];
      cbn [NilZero.string_of_uint NilEmpty.string_of_uint String.length]
        in Hlen; apply Z.ltb_lt in Hlen; lia.
Qed.

Lemma parse_format_time (n : Z) : parse_time (format_time n) = Some n.
Proof.
  unfold parse_time, format_time.
  change (":" ++ ?x)%string with (String ":" x).
  rewrite split_append_sep by apply split_format_02.
  change (":" ++ Text.format_02 (n mod 3600 mod 60))%string
    with (String ":" (Text.format_02 (n mod 3600 mod 60))).
  rewrite split_append_sep by apply split_format_02.
  rewrite split_format_02, !int_of_format_02.
  cbn [mbind option_bind]. f_equal.
  pose proof (Z.div_mod n 3600). pose proof (Z.div_mod (n mod 3600) 60).
  lia.
Qed.

(** X11.  The time labels: for [0 <= seconds < 360000] (one hundred hours)
    the label has exactly eight characters, [hh:mm:ss]; for every integer,
    reading the three numbers of the label back gives [seconds], so two
    different times never show the same label. *)
Theorem format_time_label (a b : Z) :
  (0 <= a < 360000 -> String.length (format_time a) = 8%nat)
  /\ parse_time (format_time a) = Some a
  /\ (format_time a = format_time b -> a = b).
Proof.
  split; [|split].
  - intros Ha. unfold format_time.
    pose proof (Z.mod_pos_bound a 3600 ltac:(lia)) as Hr.
    pose proof (Z.mod_pos_bound (a mod 3600) 60 ltac:(lia)) as Hx.
    assert (Hh : 0 <= a / 3600 < 100).
    { split; [apply Z.div_pos; lia|apply Z.div_lt_upper_bound; lia]. }
    assert (Hm : 0 <= a mod 3600 / 60 < 100).
    { split; [apply Z.div_pos; lia|apply Z.div_lt_upper_bound; lia]. }
    rewrite !string_length_app.
    rewrite !format_02_two_chars by lia. done.
  - apply parse_format_time.
  - intros H. pose proof (parse_format_time a) as Ha.
    rewrite H, parse_format_time in Ha. by injection Ha.
Qed.

Lemma format_time_label_witness :
  String.length (format_time 3725) = 8%nat.
Proof.
  apply (proj1 (format_time_label 3725 0)). lia.
Defined.

(** ** The window title *)

Lemma rfind_contains (s : string) (c : ascii) :
  0 <= Str.rfind s c -> Text.contains s c = true.
Proof.
  induction s as [|a s IH]; cbn [Str.rfind Text.contains]; [lia|].
  destruct (0 <=? Str.rfind s c) eqn:H.
  - intros _. apply Z.leb_le in H. rewrite IH by done. apply orb_true_r.
  - destruct (Ascii.eqb a c); [done|lia].
Qed.

Lemma rfind_bound (s : string) (c : ascii) :
  -1 <= Str.rfind s c < Str.len s.
Proof.
  unfold Str.len.
  induction s as [|a s IH]; cbn [Str.rfind String.length]; [lia|].
  destruct (0 <=? Str.rfind s c) eqn:H.
  - apply Z.leb_le in H. lia.
  - destruct (Ascii.eqb a c); lia.
Qed.

Lemma take_drop (n : nat) (s : string) :
  (Text.take n s ++ Str.drop n s)%string = s.
Proof.
  revert s. induction n as [|n IH]; intros [|a s]; try done.
  cbn [Text.take Str.drop]. by rewrite string_app_cons, IH.
Qed.

(** X12.  The window title: with no title it is ["PyMu Player"]; for a title
    without a dot it is ["PyMu Player - "] and the title; for the name of a
    file with a suffix (as every listed audio file has) it is
    ["PyMu Player - "] and the name without that suffix, which is not
    empty. *)
Theorem window_title_strips_suffix (p : Path.t) (title : string) :
  window_title "" = "PyMu Player"
  /\ (title <> "" -> Text.contains title "." = false ->
      window_title title = ("PyMu Player - " ++ title)%string)
  /\ (Path.suffix p <> "" ->
      exists stem,
        stem <> ""
        /\ Path.name p = (stem ++ Path.suffix p)%string
        /\ window_title (Path.name p) = ("PyMu Player - " ++ stem)%string).
Proof.
  split; [done|]. split.
  - intros Hne Hc. unfold window_title. rewrite Hc.
    apply String.eqb_neq in Hne. by rewrite Hne.
  - unfold Path.suffix. generalize (Path.name p). intros n.
    pose proof (rfind_bound n "."%char) as Hb.
    destruct ((0 <? Str.rfind n ".") && (Str.rfind n "." <? Str.len n - 1))
      eqn:Hi; [|done].
    intros _. apply andb_true_iff in Hi as [H0 H1].
    apply Z.ltb_lt in H0. apply Z.ltb_lt in H1.
    assert (Hne : n <> "").
    { intros ->. cbn [Str.rfind] in H0. lia. }
    exists (Text.take (Z.to_nat (Str.rfind n ".")) n). split; [|split].
    + destruct n as [|a n']; [done|].
      destruct (Z.to_nat (Str.rfind (String a n') ".")) eqn:Hn; [lia|done].
    + unfold Str.slice_from. by rewrite take_drop.
    + unfold window_title. rewrite rfind_contains by lia.
      unfold Text.rsplit1.
      assert (Hle : (0 <=? Str.rfind n ".") = true) by (apply Z.leb_le; lia).
      rewrite Hle. cbn [hd].
      apply String.eqb_neq in Hne. by rewrite Hne.
Qed.

Lemma window_title_strips_suffix_witness :
  window_title "noext" = "PyMu Player - noext"
  /\ exists stem,
       stem <> ""
       /\ Path.name (Path.Path "/m/Song.One.mp3")
          = (stem ++ Path.suffix (Path.Path "/m/Song.One.mp3"))%string
       /\ window_title (Path.name (Path.Path "/m/Song.One.mp3"))
          = ("PyMu Player - " ++ stem)%string.
Proof.
  split.
  - apply (proj1 (proj2 (window_title_strips_suffix
                           (Path.Path "/m/Song.One.mp3") "noext"))).
    + discriminate.
    + vm_compute; reflexivity.
  - apply (proj2 (proj2 (window_title_strips_suffix
                           (Path.Path "/m/Song.One.mp3") ""))).
    vm_compute. discriminate.
Defined.
